(** * obsidian-mtg: the decklist parser and the reconciliation pass of
    [src/renderer.ts], as Rocq functions.

    Conventions of the embedding.
    - A JavaScript string is the list of its UTF-16 code units ([N]).
    - A JavaScript object used as a map ([Record<string, V>]) is the
      association list of its own properties, in insertion order. Where
      the source reads such an object under a key taken from the text of
      the list (a section name, a set code), a key that the object only
      inherits from [Object.prototype] is told apart, see [inherited]. The
      maps keyed by a card id or a collector number are read through their
      own properties: their keys are values of [nameToId] or data of the
      card service, neither of which is part of the sources at hand. The
      engine's habit of enumerating integer-like keys first is left out.
    - Card counts are integers ([Z]). A JavaScript number represents an
      integer exactly up to 2^53; a statement on the value of a count that
      is read from text bounds it so in a hypothesis.
    - Prices are JavaScript floating point numbers; the operations the code
      applies to them are the fields of the class [Number].
    - [nameToId] and [UNKNOWN_CARD] are imported by the source from
      [./collection], which is not part of the sources at hand: they are
      section variables.
    - DOM construction is left out; [render] returns the aggregates that the
      DOM nodes display. *)

From Stdlib Require Import String Ascii ZArith NArith Bool Lia List.
From Stdlib Require Import DecimalString.
Import ListNotations.

(* ================================================================== *)
(** * JavaScript strings *)
(* ================================================================== *)

Module Js.

Definition char := N.
Bind Scope N_scope with char.
Definition str := list char.

(** An ASCII character and an ASCII literal as JavaScript values. *)
Definition chr (a : ascii) : char := N_of_ascii a.
Definition lit (s : string) : str := map chr (list_ascii_of_string s).

Definition str_eqb (a b : str) : bool :=
  if list_eq_dec N.eq_dec a b then true else false.

(** Truthiness of a string: the empty string is falsy. *)
Definition truthy (s : str) : bool :=
  match s with [] => false | _ :: _ => true end.

Definition truthy_opt (s : option str) : bool :=
  match s with Some s => truthy s | None => false end.

(** ** Character classes of the regular expressions *)

Definition in_range (lo hi c : char) : bool := ((lo <=? c) && (c <=? hi))%N.

Definition one_of (cs : list char) (c : char) : bool := existsb (N.eqb c) cs.

(** [\d] *)
Definition is_digit (c : char) : bool := in_range 48 57 c.

(** [A-Za-z0-9] *)
Definition is_alnum (c : char) : bool :=
  in_range 65 90 c || in_range 97 122 c || in_range 48 57 c.

(** [\w] *)
Definition is_word (c : char) : bool := is_alnum c || (c =? 95)%N.

(** Line terminators: LF, CR, U+2028, U+2029. *)
Definition is_line_terminator (c : char) : bool :=
  one_of [10; 13; 8232; 8233]%N c.

(** [\s], which is also the set that [String.prototype.trim] strips:
    white space and line terminators. *)
Definition is_space (c : char) : bool :=
  one_of [9; 10; 11; 12; 13; 32; 160; 5760; 8232; 8233; 8239; 8287; 12288;
          65279]%N c
  || in_range 8192 8202 c.

(** [.] (no [s] flag) *)
Definition is_dot (c : char) : bool := negb (is_line_terminator c).

Definition is_char (x : char) (c : char) : bool := (c =? x)%N.

(** ** String methods *)

Fixpoint drop_while (p : char -> bool) (s : str) : str :=
  match s with
  | [] => []
  | c :: s' => if p c then drop_while p s' else s
  end.

Definition trimStart (s : str) : str := drop_while is_space s.
Definition trimEnd (s : str) : str := rev (drop_while is_space (rev s)).
Definition trim (s : str) : str := trimEnd (trimStart s).

Fixpoint startsWith (p s : str) : bool :=
  match p, s with
  | [], _ => true
  | _ :: _, [] => false
  | a :: p', b :: s' => (a =? b)%N && startsWith p' s'
  end.

(** [s.includes(c)] for a one-character needle. *)
Definition includes (c : char) (s : str) : bool := existsb (N.eqb c) s.

(** [s.slice(1)] *)
Definition slice1 (s : str) : str := tl s.

(** [s.split(c)] for a one-character separator: never an empty array. *)
Fixpoint split (sep : char) (s : str) : list str :=
  match s with
  | [] => [[]]
  | c :: s' =>
      if (c =? sep)%N then [] :: split sep s'
      else match split sep s' with
           | [] => [[c]]
           | p :: ps => (c :: p) :: ps
           end
  end.

(** [parseInt] on a string of decimal digits: the number that the digits
    write. The source's [parseInt] returns the double nearest to that
    number, which is the number itself up to 2^53 (beyond, the double is
    another integer, and [Infinity] from some 309 digits on). *)
Definition digit_value (c : char) : Z := Z.of_N c - 48.

Definition parseInt (s : str) : Z :=
  fold_left (fun acc c => 10 * acc + digit_value c)%Z s 0%Z.

(** ** Objects used as maps: own properties in insertion order *)

Definition obj (V : Type) := list (str * V).

Fixpoint get {V} (k : str) (o : obj V) : option V :=
  match o with
  | [] => None
  | (k', v) :: o' => if str_eqb k k' then Some v else get k o'
  end.

(** [o[k] = v]: an existing property keeps its place, a new one goes last. *)
Fixpoint put {V} (k : str) (v : V) (o : obj V) : obj V :=
  match o with
  | [] => [(k, v)]
  | (k', v') :: o' =>
      if str_eqb k k' then (k', v) :: o' else (k', v') :: put k v o'
  end.

Definition keys {V} (o : obj V) : list str := map fst o.
Definition values {V} (o : obj V) : list V := map snd o.

(** The property names of [Object.prototype]. An object literal that has
    no own property of such a name still gives a value under it: the
    inherited function, or the prototype itself under [__proto__]. That
    value is truthy, and it has no [push] and no [forEach]. *)
Definition prototypeKeys : list str :=
  map lit
    ["constructor"; "hasOwnProperty"; "isPrototypeOf";
     "propertyIsEnumerable"; "toLocaleString"; "toString"; "valueOf";
     "__proto__"; "__defineGetter__"; "__defineSetter__";
     "__lookupGetter__"; "__lookupSetter__"]%string.

Definition inherited (k : str) : bool := existsb (str_eqb k) prototypeKeys.

(** ** Regular expressions

    Every regular expression of the source is a sequence of character
    classes, each under a greedy quantifier, possibly anchored. [exec]
    is the backtracking search of [RegExp.prototype.exec]: leftmost start,
    and at each start the quantifiers tried from their longest run down. *)

Record item := Item { cls : char -> bool; lo : nat; hi : option nat }.

Definition one (p : char -> bool) : item := Item p 1 (Some 1).
Definition plus (p : char -> bool) : item := Item p 1 None.
Definition star (p : char -> bool) : item := Item p 0 None.
Definition exactly (n : nat) (p : char -> bool) : item := Item p n (Some n).

Record regex := Regex {
  anchor_start : bool;
  items : list item;
  anchor_end : bool
}.

Fixpoint run_length (p : char -> bool) (s : str) : nat :=
  match s with
  | [] => 0
  | c :: s' => if p c then S (run_length p s') else 0
  end.

Definition greedy (it : item) (s : str) : nat :=
  let n := run_length (cls it) s in
  match hi it with
  | Some h => Nat.min n h
  | None => n
  end.

(** Try [k], [k-1], ..., [0] repetitions, the first that lets the rest of
    the pattern match wins. *)
Fixpoint try_counts (k low : nat) (s : str)
    (rest : str -> option (list str)) : option (list str) :=
  match (if low <=? k then rest (skipn k s) else None) with
  | Some ps => Some (firstn k s :: ps)
  | None =>
      match k with
      | 0 => None
      | S k' => try_counts k' low s rest
      end
  end.

(** The pieces of [s] matched by each item, for a match that starts at the
    beginning of [s]. *)
Fixpoint match_items (at_end : bool) (its : list item) (s : str)
    : option (list str) :=
  match its with
  | [] =>
      if at_end then match s with [] => Some [] | _ :: _ => None end
      else Some []
  | it :: rest =>
      try_counts (greedy it s) (lo it) s (match_items at_end rest)
  end.

Fixpoint search_from (r : regex) (before : str) (s : str)
    : option (str * list str) :=
  match match_items (anchor_end r) (items r) s with
  | Some ps => Some (rev before, ps)
  | None =>
      match s with
      | [] => None
      | c :: s' => search_from r (c :: before) s'
      end
  end.

(** [exec r s]: the text before the match and the matched pieces. *)
Definition exec (r : regex) (s : str) : option (str * list str) :=
  if anchor_start r then
    option_map (pair []) (match_items (anchor_end r) (items r) s)
  else search_from r [] s.

(** [s.match(r)] used as a condition. *)
Definition test (r : regex) (s : str) : bool :=
  match exec r s with Some _ => true | None => false end.

(** [s.replace(r, "")] for a regular expression without the [g] flag. *)
Definition remove_first (r : regex) (s : str) : str :=
  match exec r s with
  | Some (before, ps) =>
      before ++ skipn (length before + length (concat ps)) s
  | None => s
  end.

End Js.

Import Js.
Local Open Scope char_scope.
Local Open Scope string_scope.
Local Open Scope list_scope.
Local Open Scope Z_scope.

(* ================================================================== *)
(** * The data model of [renderer.ts] *)
(* ================================================================== *)

Definition DEFAULT_SECTION_NAME : str := lit "Deck:".
Definition COMMENT_DELIMITER : char := chr "#".

(** [lineType]: the string literals of the [Line] interface. *)
Inductive LineType := card | section | error | blank | comment | number.

(** [interface Line]: every field but [lineType] is optional ([None] is
    [undefined]); [globalCount] may moreover hold [null], which is
    [Some None]. *)
Record Line := mkLine {
  lineType : LineType;
  cardCount : option Z;
  globalCount : option (option Z);
  cardName : option str;
  cardNumber : option str;
  cardSetCode : option str;
  comments : option (list str);
  errors : option (list str);
  text : option str
}.

(** [lineMatchRE]: digits (group 1), one white-space character, then
    every character up to a line terminator (group 2); not anchored. *)
Definition lineMatchRE : regex :=
  Regex false [plus is_digit; one is_space; star is_dot] false.

(** [setCodesRE]: an opening parenthesis, three of [A-Za-z0-9], a closing
    parenthesis, one white-space character, digits; not anchored. *)
Definition setCodesRE : regex :=
  Regex false
    [one (is_char (chr "(")); exactly 3 is_alnum; one (is_char (chr ")"));
     one is_space; plus is_digit]
    false.

(** The class of [lineWithSetCodes]'s second group: a word character, a
    vertical bar, a space, a comma or an apostrophe. *)
Definition is_name_char (c : char) : bool :=
  is_word c || one_of [chr "|"; chr " "; chr ","; chr "'"] c.

(** [lineWithSetCodes]: digits, white space, any run of name characters,
    white space, then the shape of [setCodesRE]; not anchored. *)
Definition lineWithSetCodes : regex :=
  Regex false
    [plus is_digit; plus is_space; star is_name_char; plus is_space;
     one (is_char (chr "(")); exactly 3 is_alnum; one (is_char (chr ")"));
     one is_space; plus is_digit]
    false.

(** [blankLineRE]: white space only, at least one, from start to end. *)
Definition blankLineRE : regex := Regex true [plus is_space] true.

(** [headingMatchRE] is built from the text "^[^[0-9|" followed by the
    comment delimiter and "]": one negated class at the start of the string,
    which excludes an opening bracket, the digits, a vertical bar and the
    comment delimiter. *)
Definition is_heading_start (c : char) : bool :=
  negb (is_char (chr "[") c || is_digit c || is_char (chr "|") c
        || is_char COMMENT_DELIMITER c).

Definition headingMatchRE : regex := Regex true [one is_heading_start] false.

(** [numberRE]: digits, at least one, up to the end of the string; the
    start is not anchored. *)
Definition numberRE : regex := Regex false [plus is_digit] true.

(** [type CardCounts = Record<string, number>] *)
Definition CardCounts := obj Z.

(** [extractSetCode]: the value of the last [key=value] setting whose key
    is [set], among the comma separated settings after the first
    character. *)
Definition extractSetCode (value : str) : str :=
  fold_left
    (fun setCode setting =>
       match split (chr "=") setting with
       | [k; v] => if str_eqb (trim k) (lit "set") then trim v else setCode
       | _ => setCode
       end)
    (split (chr ",") (slice1 value)) [].

(** [ObsidianPluginMtgSettings.decklist] of [settings.ts]. *)
Inductive Currency := cur_usd | cur_eur | cur_tix.

Record DecklistSettings := mkSettings {
  preferredCurrency : Currency;
  showCardNamesAsHyperlinks : bool;
  showCardPreviews : bool;
  showBuylist : bool;
  hidePrices : bool
}.

(** [CardData] is declared in [./scryfall], which is not part of the sources
    at hand; these are the fields [renderer.ts] reads. *)
Record Prices := mkPrices {
  usd : option str;
  eur : option str;
  tix : option str
}.

Record CardData := mkCardData {
  name : option str;
  prices : option Prices;
  set : str;
  collector_number : str
}.

(** [Record<string, CardData>]; a property may hold [undefined] ([None]),
    which is what [renderCollection] stores for a card it did not find. *)
Definition Catalog := obj (option CardData).

(** The arithmetic of JavaScript numbers on prices. The law is a fact of
    IEEE 754 doubles: ["0.00"] parses to zero, zero times a finite count is
    a zero, and adding a zero changes no number. *)
Class Number (F : Type) := {
  num_zero : F;
  num_add : F -> F -> F;
  num_sub : F -> F -> F;
  num_mul : F -> F -> F;
  num_of_count : Z -> F;
  parseFloat : str -> F;
  num_truthy : F -> bool;
  add_unpriced : forall x q,
    num_add x (num_mul (parseFloat (lit "0.00")) (num_of_count q)) = x
}.

(** The one exception [render] and [renderCollection] can raise. *)
Inductive exn := TypeError.

Inductive result (A : Type) :=
  | Returned (a : A)
  | Thrown (e : exn).
Arguments Returned {A} a.
Arguments Thrown {A} e.

Definition bind {A B} (r : result A) (k : A -> result B) : result B :=
  match r with
  | Returned a => k a
  | Thrown e => Thrown e
  end.

Notation "x <- r ;; k" := (bind r (fun x => k))
  (at level 61, r at next level, right associativity).

(** A loop whose body may raise: the first exception ends it. *)
Fixpoint foldM {A B} (f : A -> B -> result A) (l : list B) (a : A)
    : result A :=
  match l with
  | [] => Returned a
  | x :: rest => a' <- f a x ;; foldM f rest a'
  end.

(** [`${n}`] for an integer. *)
Definition showZ (n : Z) : str :=
  lit (NilEmpty.string_of_int (Z.to_int n)).

(* ------------------------------------------------------------------ *)
(** ** The query builders *)

(** [Array.from(new Set(xs))]: the first occurrence of each string, in the
    order of the first occurrences. *)
Definition distinct (xs : list str) : list str :=
  fold_left
    (fun seen x => if existsb (str_eqb x) seen then seen else seen ++ [x])
    xs [].

(** [line.cardName || ""] *)
Definition cardNameOrEmpty (line : Line) : str :=
  match cardName line with
  | Some n => n
  | None => []
  end.

Definition buildDistinctCardNamesList (lines : list Line) : list str :=
  distinct (filter truthy (map cardNameOrEmpty lines)).

(** One iteration of the [lines.forEach] of
    [buildDistinctCardNumbersBySetList]. [cardNumbersBySet[setCode]] is
    read through the prototype: under a set code that names a member of
    [Object.prototype] and is no own property yet, the test finds a truthy
    value, no array is stored, and [push] is called on a value that has
    none, a [TypeError]. *)
Definition addCardNumber (cardNumbersBySet : obj (list str)) (line : Line)
    : result (obj (list str)) :=
  match cardNumber line, cardSetCode line with
  | Some num, Some setCode =>
      if (truthy num && truthy setCode)%bool then
        match get setCode cardNumbersBySet with
        | Some numbers =>
            Returned (put setCode (numbers ++ [num]) cardNumbersBySet)
        | None =>
            if inherited setCode then Thrown TypeError
            else Returned (put setCode [num] cardNumbersBySet)
        end
      else Returned cardNumbersBySet
  | _, _ => Returned cardNumbersBySet
  end.

Definition buildDistinctCardNumbersBySetList (lines : list Line)
    : result (obj (list str)) :=
  foldM addCardNumber lines [].

Section Renderer.

(** [nameToId] of [./collection]; the source also calls it on a
    [cardName] that may be [undefined]. *)
Variable nameToId : option str -> str.

(** [!Object.keys(cardCounts).length] *)
Definition shouldSkipGlobalCounts (cardCounts : CardCounts) : bool :=
  match keys cardCounts with [] => true | _ :: _ => false end.

(** [o[k] || 0] on a map of counts. *)
Definition countOf (o : CardCounts) (k : str) : Z :=
  match get k o with Some n => n | None => 0 end.

(** The callback of [rawLines.map] in [parseLines]: the record for one
    line, and the value of [currentSetCode] the callback leaves behind. *)
Definition parseLine (cardCounts : CardCounts) (currentSetCode : str)
    (line : str) : Line * str :=
  if (Nat.eqb (List.length line) 0 || test blankLineRE line)%bool then
    (mkLine blank None None None None None None None None, currentSetCode)
  else if test headingMatchRE line then
    (mkLine section None None None None None None None (Some line),
     currentSetCode)
  else if startsWith [COMMENT_DELIMITER; chr " "] line then
    let setCode := extractSetCode line in
    (mkLine comment None None None None None (Some [line]) None None,
     if truthy setCode then setCode else currentSetCode)
  else if test numberRE line then
    (mkLine card (Some 1) (Some None) None (Some (trim line))
       (Some currentSetCode) None None (Some line),
     currentSetCode)
  else
    let stripped :=
      if test lineWithSetCodes line then trim (remove_first setCodesRE line)
      else line in
    let lineAndComments := split COMMENT_DELIMITER line in
    let comments :=
      if includes COMMENT_DELIMITER line then tl lineAndComments else [] in
    let lineWithoutComments :=
      if includes COMMENT_DELIMITER line then hd [] lineAndComments
      else stripped in
    match exec lineMatchRE lineWithoutComments with
    | None =>
        (mkLine error None None None None None None
           (Some [lit "invalid line: " ++ line]) None,
         currentSetCode)
    | Some (_, lineParts) =>
        let digits := nth 0 lineParts [] in
        let cardCount :=
          parseInt (if truthy digits then digits else lit "0") in
        let cardName := nth 2 lineParts [] in
        let cardId := nameToId (Some cardName) in
        let globalCount :=
          if shouldSkipGlobalCounts cardCounts then None
          else Some (countOf cardCounts cardId) in
        let errors :=
          if Nat.eqb (List.length cardName) 0
          then [lit "Unable to parse card name from: " ++ line]
          else [] in
        (mkLine card (Some cardCount) (Some globalCount) (Some cardName)
           None None (Some comments) (Some errors) None,
         currentSetCode)
    end.

(** [rawLines.map(...)] with [currentSetCode] threaded from line to line. *)
Fixpoint parseFrom (cardCounts : CardCounts) (currentSetCode : str)
    (rawLines : list str) : list Line :=
  match rawLines with
  | [] => []
  | line :: rest =>
      let (parsed, setCode) := parseLine cardCounts currentSetCode line in
      parsed :: parseFrom cardCounts setCode rest
  end.

Definition parseLines (rawLines : list str) (cardCounts : CardCounts)
    : list Line :=
  parseFrom cardCounts [] rawLines.

(* ------------------------------------------------------------------ *)
(** ** Prices *)

Variable UNKNOWN_CARD : str.

Context {F : Type} `{Number F}.

Definition lookupCard (cardDataById : Catalog) (cardId : str)
    : option CardData :=
  match get cardId cardDataById with
  | Some (Some d) => Some d
  | _ => None
  end.

(** [x || null] for an optional string. *)
Definition orNull (x : option str) : option str :=
  match x with
  | Some s => if truthy s then Some s else None
  | None => None
  end.

Definition priceIn (c : Currency) (d : CardData) : option str :=
  match prices d with
  | None => None
  | Some p =>
      orNull match c with
             | cur_eur => eur p
             | cur_tix => tix p
             | cur_usd => usd p
             end
  end.

Definition getCardPrice (cardName : str) (cardDataById : Catalog)
    (settings : DecklistSettings) : option str :=
  let cardId := nameToId (Some cardName) in
  match lookupCard cardDataById cardId with
  | None => None
  | Some cardData =>
      if hidePrices settings then None
      else priceIn (preferredCurrency settings) cardData
  end.

(* ------------------------------------------------------------------ *)
(** ** What the fetchers keep of the answers of Scryfall *)

(** [fetchCardDataFromScryfall], after the requests: the cards of every
    batch that have a name, each under the id of its name. *)
Definition collectCardData (batches : list (list CardData)) : Catalog :=
  fold_left
    (fun cardDataByCardId card =>
       if truthy_opt (name card)
       then put (nameToId (name card)) (Some card) cardDataByCardId
       else cardDataByCardId)
    (concat batches) [].

(** [fetchCardDataByIDFromScryfall], after the requests: for each set, the
    cards of the answer that are not null and have a name, each under its
    collector number. *)
Definition collectCardDataBySet (answers : list (str * list (option CardData)))
    : obj (obj CardData) :=
  fold_left
    (fun bySet answer =>
       put (fst answer)
         (fold_left
            (fun byNumber card =>
               match card with
               | Some c =>
                   if truthy_opt (name c)
                   then put (collector_number c) c byNumber
                   else byNumber
               | None => byNumber
               end)
            (snd answer) [])
         bySet)
    answers [].

(* ------------------------------------------------------------------ *)
(** ** [render]: grouping into sections *)

(** The state of the first [parsedLines.forEach]: [currentSection],
    [sections] and [linesBySection]. *)
Definition Grouping : Type := str * list str * obj (list Line).

Definition isSection (line : Line) : bool :=
  match lineType line with section => true | _ => false end.

(** One iteration of that loop. [linesBySection[currentSection]] is read
    through the prototype: under a section name that names a member of
    [Object.prototype] and is no own property yet, the test finds a truthy
    value, no array is stored, and [push] is called on a value that has
    none, a [TypeError]. *)
Definition groupStep (g : Grouping) (line : Line) : result Grouping :=
  let '(currentSection, sections, linesBySection) := g in
  if isSection line then
    let currentSection :=
      match text line with
      | Some t => if truthy t then t else DEFAULT_SECTION_NAME
      | None => DEFAULT_SECTION_NAME
      end in
    Returned (currentSection, sections ++ [currentSection], linesBySection)
  else
    match get currentSection linesBySection with
    | Some bucket =>
        Returned
          (currentSection, sections,
           put currentSection (bucket ++ [line]) linesBySection)
    | None =>
        if inherited currentSection then Thrown TypeError
        else
          Returned
            (currentSection, sections,
             put currentSection [line] linesBySection)
    end.

Definition groupLines (isCollection : bool) (parsedLines : list Line)
    : result Grouping :=
  let currentSection :=
    if isCollection then lit "Collection: " else DEFAULT_SECTION_NAME in
  let sections :=
    match parsedLines with
    | line :: _ => if isSection line then [] else [currentSection]
    | [] => []
    end in
  foldM groupStep parsedLines (currentSection, sections, []).

(* ------------------------------------------------------------------ *)
(** ** [render]: the lines of one section *)

(** The maps [render] keeps across sections. *)
Record Totals := mkTotals {
  sectionTotalCounts : obj Z;
  sectionTotalCost : obj F;
  missingCardCounts : CardCounts
}.

Definition costOf (o : obj F) (k : str) : F :=
  match get k o with Some c => c | None => num_zero end.

(** [line.cardCount || 0] *)
Definition lineCardCount (line : Line) : Z :=
  match cardCount line with Some n => n | None => 0 end.

(** [line.globalCount === null ? -1 : line.globalCount || 0] *)
Definition lineGlobalCount (line : Line) : Z :=
  match globalCount line with
  | Some None => -1
  | Some (Some n) => n
  | None => 0
  end.

(** The condition of the missing-count branch. *)
Definition insufficient (line : Line) : bool :=
  (negb (lineGlobalCount line =? -1)
   && (lineGlobalCount line <? lineCardCount line))%bool.

(** The price shown for a line: [undefined] without a card name. *)
Definition linePrice (cardDataByCardId : Catalog)
    (settings : DecklistSettings) (line : Line) : option str :=
  match cardName line with
  | Some n =>
      if truthy n then getCardPrice n cardDataByCardId settings else None
  | None => None
  end.

(** [sectionTotalCost[section] + (totalPrice || 0.0)] when the line has a
    price; both branches of the source add the same amount. *)
Definition addLineCost (cardDataByCardId : Catalog)
    (settings : DecklistSettings) (section : str) (line : Line)
    (cost : obj F) : obj F :=
  match linePrice cardDataByCardId settings line with
  | Some cardPrice =>
      let totalPrice :=
        num_mul (num_of_count (lineCardCount line)) (parseFloat cardPrice) in
      put section
        (num_add (costOf cost section)
           (if num_truthy totalPrice then totalPrice else num_zero))
        cost
  | None => cost
  end.

(** One iteration of [linesBySection[section].forEach]: the totals and
    [sectionMissingCardCounts] after the line. [sectionTotalCounts[section]]
    and [sectionTotalCost[section]] are defined when the source reads them,
    every section having been given a zero. *)
Definition renderLine (cardDataByCardId : Catalog)
    (settings : DecklistSettings) (section : str)
    (st : Totals * CardCounts) (line : Line) : Totals * CardCounts :=
  let (totals, sectionMissingCardCounts) := st in
  match lineType line with
  | card =>
      let cardId := nameToId (cardName line) in
      let shortfall := lineCardCount line - lineGlobalCount line in
      let missing' :=
        if insufficient line
        then put cardId (countOf (missingCardCounts totals) cardId + shortfall)
               (missingCardCounts totals)
        else missingCardCounts totals in
      let sectionMissing' :=
        if insufficient line
        then put cardId (countOf sectionMissingCardCounts cardId + shortfall)
               sectionMissingCardCounts
        else sectionMissingCardCounts in
      let cost' :=
        addLineCost cardDataByCardId settings section line
          (sectionTotalCost totals) in
      let counts' :=
        put section
          (countOf (sectionTotalCounts totals) section + lineCardCount line)
          (sectionTotalCounts totals) in
      (mkTotals counts' cost' missing', sectionMissing')
  | _ => st
  end.

Definition sumZ (l : list Z) : Z := fold_left Z.add l 0.

(** What the totals row of a section displays. [totalMissingCountInSection]
    and [totalCardsOwned] exist only when the section misses cards, and
    [totalValueOwned] only when moreover prices are shown. *)
Record SectionView := mkSectionView {
  heading : str;
  sectionMissingCardCounts : CardCounts;
  totalCount : Z;
  totalCost : F;
  totalMissingCountInSection : option Z;
  totalCardsOwned : option Z;
  totalValueOwned : option F
}.

(** [Object.keys(cardDataByCardId).length > 0] *)
Definition hasCardInfo (cardDataByCardId : Catalog) : bool :=
  match keys cardDataByCardId with [] => false | _ :: _ => true end.

(** One iteration of [sections.forEach], given the bucket of the section. *)
Definition renderSection (cardDataByCardId : Catalog)
    (settings : DecklistSettings) (section : str) (bucket : list Line)
    (totals : Totals) : Totals * SectionView :=
  let (totals', sectionMissing) :=
    fold_left (renderLine cardDataByCardId settings section) bucket
      (totals, []) in
  let count := countOf (sectionTotalCounts totals') section in
  let cost := costOf (sectionTotalCost totals') section in
  let someMissing :=
    match keys sectionMissing with [] => false | _ :: _ => true end in
  let totalMissing := sumZ (values sectionMissing) in
  let totalMissingCost :=
    fold_left
      (fun acc cardId =>
         let countNeeded := countOf sectionMissing cardId in
         let cardPrice :=
           parseFloat
             match getCardPrice cardId cardDataByCardId settings with
             | Some p => p
             | None => lit "0.00"
             end in
         num_add acc (num_mul cardPrice (num_of_count countNeeded)))
      (keys sectionMissing) num_zero in
  (totals',
   mkSectionView section sectionMissing count cost
     (if someMissing then Some totalMissing else None)
     (if someMissing then Some (count - totalMissing) else None)
     (if (someMissing && hasCardInfo cardDataByCardId
          && negb (hidePrices settings))%bool
      then Some (num_sub cost totalMissingCost) else None)).

(* ------------------------------------------------------------------ *)
(** ** [render]: all sections, the buylist and the sync link *)

(** [sections.reduce((acc, curr) => ({ ...acc, [curr]: z }), {})] *)
Definition zeroed {V} (z : V) (sections : list str) : obj V :=
  fold_left (fun acc curr => put curr z acc) sections [].

(** [sections.forEach]: [linesBySection[section].forEach] is a [TypeError]
    when the section has no bucket, be it that the name gives [undefined]
    or that it gives a member of [Object.prototype], which has no
    [forEach]. *)
Fixpoint renderSections (cardDataByCardId : Catalog)
    (settings : DecklistSettings) (linesBySection : obj (list Line))
    (sections : list str) (totals : Totals)
    : result (Totals * list SectionView) :=
  match sections with
  | [] => Returned (totals, [])
  | s :: rest =>
      match get s linesBySection with
      | None => Thrown TypeError
      | Some bucket =>
          let (totals', view) :=
            renderSection cardDataByCardId settings s bucket totals in
          r <- renderSections cardDataByCardId settings linesBySection rest
                 totals' ;;
          Returned (fst r, view :: snd r)
      end
  end.

Record Buylist := mkBuylist {
  buylistLines : str;
  totalCostOfBuylist : F;
  buylistCardCounts : Z
}.

Definition newline : str := [10%N].

(** [cardInfo.name || ""] *)
Definition nameOrEmpty (cardInfo : CardData) : str :=
  match name cardInfo with Some n => n | None => [] end.

(** [parseFloat(getCardPrice(cardName, cardDataByCardId, settings) ||
    "0.00")] *)
Definition unitPrice (cardDataByCardId : Catalog)
    (settings : DecklistSettings) (cardName : str) : F :=
  parseFloat
    match getCardPrice cardName cardDataByCardId settings with
    | Some p => p
    | None => lit "0.00"
    end.

(** One iteration of [buylistCardIds.forEach]: [totalCostOfBuylist] and
    [buylistLines] after the card. *)
Definition buylistStep (cardDataByCardId : Catalog)
    (settings : DecklistSettings) (missing : CardCounts)
    (acc : F * str) (cardId : str) : F * str :=
  let (total, lines) := acc in
  let countNeeded := countOf missing cardId in
  let buylistLine := showZ countNeeded ++ lit " " in
  match lookupCard cardDataByCardId cardId with
  | Some cardInfo =>
      let cardName := nameOrEmpty cardInfo in
      let cardPrice := unitPrice cardDataByCardId settings cardName in
      (num_add total (num_mul cardPrice (num_of_count countNeeded)),
       lines ++ (buylistLine ++ cardName) ++ newline)
  | None =>
      (total,
       lines ++ buylistLine
         ++ (if truthy cardId then cardId else UNKNOWN_CARD) ++ newline)
  end.

(** The buylist, built only when there are missing cards and the
    [showBuylist] setting is on. *)
Definition buildBuylist (cardDataByCardId : Catalog)
    (settings : DecklistSettings) (missing : CardCounts) : option Buylist :=
  let buylistCardIds := keys missing in
  let buylistCardCounts := sumZ (values missing) in
  if (match buylistCardIds with [] => false | _ :: _ => true end
      && showBuylist settings)%bool
  then
    let (total, lines) :=
      fold_left (buylistStep cardDataByCardId settings missing)
        buylistCardIds (num_zero, []) in
    Some (mkBuylist lines total buylistCardCounts)
  else None.

(** [workspace.getActiveFile()?.path] is all [render] asks of a workspace. *)
Record Workspace := mkWorkspace { activeFilePath : option str }.

Definition opt_str_eqb (a b : option str) : bool :=
  match a, b with
  | Some x, Some y => str_eqb x y
  | None, None => true
  | _, _ => false
  end.

Definition isCard (line : Line) : bool :=
  match lineType line with card => true | _ => false end.

(** The [for (const cardId in cardDataByCardId)] loop of the sync link:
    reading [cardData.name] of an [undefined] entry is a [TypeError]. *)
Fixpoint syncCards (parsedLines : list Line) (entries : Catalog)
    : result str :=
  match entries with
  | [] => Returned []
  | (_, None) :: _ => Thrown TypeError
  | (_, Some cardData) :: rest =>
      let count :=
        List.length
          (filter (fun line => opt_str_eqb (cardName line) (name cardData))
             (filter isCard parsedLines)) in
      tail <- syncCards parsedLines rest ;;
      Returned
        (set cardData ++ lit ":" ++ collector_number cardData ++ lit ":"
           ++ showZ (Z.of_nat count) ++ lit "//" ++ tail)
  end.

Definition syncHref (workspace : Workspace) (parsedLines : list Line)
    (cardDataByCardId : Catalog) : result str :=
  cards <- syncCards parsedLines cardDataByCardId ;;
  Returned
    (lit "obsidian://obsidian-mtg-action-sync-from-collection-list?"
       ++ lit "file="
       ++ match activeFilePath workspace with
          | Some p => p
          | None => lit "undefined"
          end
       ++ lit "&cards=" ++ cards).

Record Rendered := mkRendered {
  sectionViews : list SectionView;
  finalTotals : Totals;
  buylist : option Buylist;
  syncLink : option str
}.

Definition render (cardDataByCardId : Catalog) (settings : DecklistSettings)
    (workspace : option Workspace) (parsedLines : list Line)
    (isCollection : bool) : result Rendered :=
  g <- groupLines isCollection parsedLines ;;
  let '(_, sections, linesBySection) := g in
  let totals :=
    mkTotals (zeroed 0 sections) (zeroed num_zero sections) [] in
  r <- renderSections cardDataByCardId settings linesBySection sections
         totals ;;
  let bl := buildBuylist cardDataByCardId settings
              (missingCardCounts (fst r)) in
  link <- match isCollection, workspace with
          | true, Some w =>
              href <- syncHref w parsedLines cardDataByCardId ;;
              Returned (Some href)
          | _, _ => Returned None
          end ;;
  Returned (mkRendered (snd r) (fst r) bl link).

(** [renderDecklist]; [cardDataByCardId] is what the data fetcher
    answered (the empty object when it failed). *)
Definition renderDecklist (source : str) (cardCounts : CardCounts)
    (settings : DecklistSettings) (workspace : option Workspace)
    (cardDataByCardId : Catalog) : result Rendered :=
  let lines := split 10%N source in
  let parsedLines := parseLines lines cardCounts in
  render cardDataByCardId settings workspace parsedLines false.

(* ------------------------------------------------------------------ *)
(** ** [renderCollection] *)

Definition placeholderName (setCode number : str) : str :=
  lit "Card not found (" ++ setCode ++ lit "/" ++ number ++ lit ")".

(** One iteration of the [parsedLines.forEach] of [renderCollection]: the
    line as the callback leaves it, and [cardDataByCardId]. Indexing a set
    code that the fetched data lacks is a [TypeError]. *)
Definition resolveLine (cardCounts : CardCounts)
    (cardDataBySetNameByCardNumber : obj (obj CardData))
    (cardDataByCardId : Catalog) (line : Line) : result (Line * Catalog) :=
  match cardNumber line, cardSetCode line with
  | Some num, Some setCode =>
      if (isCard line && truthy num && truthy setCode)%bool then
        match get setCode cardDataBySetNameByCardNumber with
        | None => Thrown TypeError
        | Some bySetCode =>
            let cardData := get num bySetCode in
            let cardName' :=
              match cardData with
              | None => Some (placeholderName setCode num)
              | Some d => name d
              end in
            let cardId := nameToId cardName' in
            let globalCount' :=
              if shouldSkipGlobalCounts cardCounts then globalCount line
              else Some (Some (countOf cardCounts cardId)) in
            Returned
              (mkLine (lineType line) (cardCount line) globalCount' cardName'
                 (cardNumber line) (cardSetCode line) (comments line)
                 (errors line) (text line),
               put cardId cardData cardDataByCardId)
        end
      else Returned (line, cardDataByCardId)
  | _, _ => Returned (line, cardDataByCardId)
  end.

Fixpoint resolveLines (cardCounts : CardCounts)
    (cardDataBySetNameByCardNumber : obj (obj CardData))
    (cardDataByCardId : Catalog) (parsedLines : list Line)
    : result (list Line * Catalog) :=
  match parsedLines with
  | [] => Returned ([], cardDataByCardId)
  | line :: rest =>
      r <- resolveLine cardCounts cardDataBySetNameByCardNumber
             cardDataByCardId line ;;
      rs <- resolveLines cardCounts cardDataBySetNameByCardNumber (snd r)
              rest ;;
      Returned (fst r :: fst rs, snd rs)
  end.

(** [renderCollection]; [cardDataBySetNameByCardNumber] is what the data
    fetcher answered (the empty object when it failed). The query for the
    fetcher is built outside the [try], so an exception of
    [buildDistinctCardNumbersBySetList] is one of [renderCollection]. *)
Definition renderCollection (source : str) (cardCounts : CardCounts)
    (settings : DecklistSettings) (workspace : option Workspace)
    (cardDataBySetNameByCardNumber : obj (obj CardData))
    : result Rendered :=
  let lines := split 10%N source in
  let parsedLines := parseLines lines cardCounts in
  _ <- buildDistinctCardNumbersBySetList parsedLines ;;
  r <- resolveLines cardCounts cardDataBySetNameByCardNumber []
         parsedLines ;;
  render (snd r) settings workspace (fst r) true.

End Renderer.

(* ================================================================== *)
(** * Concrete parameters, to run the model *)
(* ================================================================== *)

(** ASCII letters lowered. *)
Definition toLowerCase (s : str) : str :=
  map (fun c => if in_range 65 90 c then (c + 32)%N else c) s.

(** Modelled from the spec: [nameToId] of [./collection], which is not part
    of the sources at hand. The spec asks for a deterministic normaliser
    that is insensitive to case and surrounding white space: the name is
    lowered and trimmed; [undefined] gives the empty id. *)
Definition nameToId_spec (cardName : option str) : str :=
  match cardName with
  | Some n => trim (toLowerCase n)
  | None => []
  end.

(** Modelled from the spec: [UNKNOWN_CARD] of [./collection], the "unknown
    card" marker of the buylist. *)
Definition UNKNOWN_CARD_spec : str := lit "Unknown Card".

(** Prices in hundredths, an instance of [Number] that computes: a price is
    read as digits, a point and up to two decimals. *)
Definition parseCents (s : str) : Z :=
  let whole := firstn (run_length is_digit s) s in
  let decimals :=
    match skipn (run_length is_digit s) s with
    | c :: r =>
        if is_char (chr ".") c then firstn 2 (firstn (run_length is_digit r) r)
        else []
    | [] => []
    end in
  100 * parseInt whole
  + match decimals with
    | [a] => 10 * digit_value a
    | [a; b] => 10 * digit_value a + digit_value b
    | _ => 0
    end.

#[export] Instance Cents : Number Z.
Proof.
  refine {|
    num_zero := 0;
    num_add := Z.add;
    num_sub := Z.sub;
    num_mul := fun a b => a * b / 100;
    num_of_count := fun q => 100 * q;
    parseFloat := parseCents;
    num_truthy := fun x => negb (x =? 0)
  |}.
  intros x q. replace (parseCents (lit "0.00")) with 0 by reflexivity.
  rewrite Z.mul_0_l, Z.div_0_l by lia. lia.
Defined.


(** An owned card and a ledger, a list with a sideboard, and a collection
    list, for the examples. *)
Definition settings0 : DecklistSettings :=
  mkSettings cur_usd true true true false.

Definition shock : CardData :=
  mkCardData (Some (lit "Shock"))
    (Some (mkPrices (Some (lit "1.50")) None None)) (lit "m19") (lit "156").

Definition catalog0 : Catalog := [(lit "shock", Some shock)].

Definition ledger0 : CardCounts := [(lit "negate", 1)].

Definition unlines (lines : list str) : str :=
  match lines with
  | [] => []
  | l :: ls => l ++ concat (map (fun x => 10%N :: x) ls)
  end.


Definition warList : str := unlines [lit "# set=war"; lit "5"].

Definition notes : Workspace := mkWorkspace (Some (lit "notes/war.md")).


Definition twiceSideboard : list str :=
  [lit "Sideboard:"; lit "2 Negate"; lit "Sideboard:"; lit "3 Shock"].

Definition emptyHeading : list str :=
  [lit "Deck:"; lit "Sideboard:"; lit "1 Shock"].

Definition prototypeHeading : list str := [lit "constructor"; lit "1 Shock"].

Definition knowsShock (batch : list str) : result (list CardData) :=
  Returned (if existsb (str_eqb (lit "shock")) batch then [shock] else []).

Definition m19Cards (setName : str) (numbers : list str)
    : result (list (option CardData)) :=
  if str_eqb setName (lit "m19")
  then Returned
         (map (fun num => if str_eqb num (lit "156") then Some shock else None)
            numbers)
  else Thrown TypeError.

Definition m19List : list str := [lit "# set=m19"; lit "156"; lit "7"].

(* ================================================================== *)
(** * The vocabulary of the statements *)
(* ================================================================== *)

Definition isSome {A} (o : option A) : bool :=
  match o with Some _ => true | None => false end.

(** The first, and the last, character of a string satisfies [p]. *)
Definition first_is (p : char -> bool) (s : str) : bool :=
  match s with [] => false | c :: _ => p c end.

Fixpoint last_is (p : char -> bool) (s : str) : bool :=
  match s with
  | [] => false
  | c :: s' => match s' with [] => p c | _ :: _ => last_is p s' end
  end.

Definition isComment (line : Line) : bool :=
  match lineType line with comment => true | _ => false end.

(** What a line adds to the missing-count maps under its card id. *)
Definition lineDeficit (line : Line) : Z :=
  if (isCard line && insufficient line)%bool
  then lineCardCount line - lineGlobalCount line
  else 0.

(** What a line adds to the total count of its section. *)
Definition lineCount (line : Line) : Z :=
  if isCard line then lineCardCount line else 0.

(** The ledger holds owned quantities, which are not negative; a card
    record then has a [globalCount] that is null or such a quantity. *)
Definition ledger_ok (cardCounts : CardCounts) : Prop :=
  forall cardId n, get cardId cardCounts = Some n -> 0 <= n.

Definition tracked_ok (line : Line) : Prop :=
  isCard line = true ->
  globalCount line = Some None
  \/ exists owned, globalCount line = Some (Some owned) /\ 0 <= owned.


(** A record without an owned count: its [globalCount] is no number, and
    it is null on a card record. *)
Definition untracked (line : Line) : Prop :=
  (forall n, globalCount line <> Some (Some n))
  /\ (isCard line = true -> globalCount line = Some None).

(** Every card of the fetched data has a name. *)
Definition named (fetched : obj (obj CardData)) : Prop :=
  forall setCode bySetCode num d,
    get setCode fetched = Some bySetCode ->
    get num bySetCode = Some d ->
    name d <> None.

Section Vocabulary.

Variable nameToId : option str -> str.
Variable UNKNOWN_CARD : str.
Context {F : Type} `{Number F}.

(** The value of [currentSetCode] after the callback of [parseLines] has
    run on each of [rawLines] in turn. *)
Definition carried (cardCounts : CardCounts) (start : str)
    (rawLines : list str) : str :=
  fold_left (fun st line => snd (parseLine nameToId cardCounts st line))
    rawLines start.

Definition hasId (cardId : str) (line : Line) : bool :=
  str_eqb (nameToId (cardName line)) cardId.

(** A card line with a collector number that the fetched data of its set
    does not hold, and the id of its placeholder name. *)
Definition missedBy (fetched : obj (obj CardData)) (cardId : str)
    (line : Line) : Prop :=
  isCard line = true
  /\ exists num setCode bySetCode,
       cardNumber line = Some num /\ cardSetCode line = Some setCode
       /\ num <> [] /\ setCode <> []
       /\ get setCode fetched = Some bySetCode
       /\ get num bySetCode = None
       /\ cardId = nameToId (Some (placeholderName setCode num)).

Variable cardDataByCardId : Catalog.
Variable settings : DecklistSettings.

(** The catalog is keyed by card id: an entry sits under the id of its own
    name. *)
Definition catalog_wf : Prop :=
  forall cardId d,
    lookupCard cardDataByCardId cardId = Some d ->
    nameToId (Some (nameOrEmpty d)) = cardId.






End Vocabulary.

(* ================================================================== *)
(** * The fetchers of [renderer.ts] *)
(* ================================================================== *)

Section Fetchers.

Variable nameToId : option str -> str.

(** [MAX_SCRYFALL_BATCH_SIZE] of [./scryfall], which is not part of the
    sources at hand (a comment of the source says 75). *)
Variable MAX_SCRYFALL_BATCH_SIZE : nat.

(** The arrays that [fetchCardDataFromScryfall] fills. [batches] holds
    references to arrays, not copies, and [currentBatch] is such a
    reference too: a name pushed to the current array shows in every place
    of [batches] that refers to it. [arrays] is the store, a reference is an
    index into it. *)
Record Batching := mkBatching {
  arrays : list (list str);
  batches : list nat;
  currentBatch : nat
}.

(** [arrays[i].push(x)] *)
Fixpoint push_at (i : nat) (x : str) (store : list (list str))
    : list (list str) :=
  match store, i with
  | [], _ => []
  | a :: rest, O => (a ++ [x]) :: rest
  | a :: rest, S j => a :: push_at j x rest
  end.

(** One iteration of [distinctCardNames.forEach]: when the current array
    is full it is pushed to [batches] and a new array becomes current; the
    id of the name then goes to the current array. *)
Definition batchStep (b : Batching) (cardName : str) : Batching :=
  let b' :=
    if Nat.eqb (List.length (nth (currentBatch b) (arrays b) []))
         MAX_SCRYFALL_BATCH_SIZE
    then mkBatching (arrays b ++ [[]]) (batches b ++ [currentBatch b])
           (List.length (arrays b))
    else b in
  mkBatching
    (push_at (currentBatch b') (nameToId (Some cardName)) (arrays b'))
    (batches b') (currentBatch b').

(** What the loop keeps true: the arrays are the full batches and the
    current one, [batches] refers to the first array and then to every
    full one, and the arrays together hold the ids of the names seen. *)
Definition batching_ok (ids : list str) (b : Batching) : Prop :=
  exists init last,
    arrays b = init ++ [last]
    /\ currentBatch b = List.length init
    /\ batches b = O :: seq 0 (List.length init)
    /\ Forall (fun a => List.length a = MAX_SCRYFALL_BATCH_SIZE) init
    /\ (List.length last <= MAX_SCRYFALL_BATCH_SIZE)%nat
    /\ concat init ++ last = ids.

(** The batches that [fetchCardDataFromScryfall] requests, as they are
    when the requests are made: [batches] starts with the first array in
    it, and the current array is pushed once more after the loop. *)
Definition requestedBatches (distinctCardNames : list str)
    : list (list str) :=
  let b := fold_left batchStep distinctCardNames (mkBatching [[]] [O] O) in
  map (fun i => nth i (arrays b) []) (batches b ++ [currentBatch b]).

(** [getMultipleCardData] of [./scryfall]: the [data] of the answer to a
    batch, or an exception. *)
Variable getMultipleCardData : list str -> result (list CardData).

(** [Promise.all(batches.map(...))]: the first failure is the failure of
    the whole. *)
Fixpoint requestAll (bs : list (list str)) : result (list (list CardData)) :=
  match bs with
  | [] => Returned []
  | b :: rest =>
      data <- getMultipleCardData b ;;
      others <- requestAll rest ;;
      Returned (data :: others)
  end.

Definition fetchCardDataFromScryfall (distinctCardNames : list str)
    : result Catalog :=
  answers <- requestAll (requestedBatches distinctCardNames) ;;
  Returned (collectCardData nameToId answers).

(** [getMultipleCardDataByID] of [./scryfall]: the cards of a set with the
    given collector numbers ([null] for a card that is missing), or an
    exception. *)
Variable getMultipleCardDataByID :
  str -> list str -> result (list (option CardData)).

(** [fetchCardDataByIDFromScryfall]: an exception of a request is caught,
    and the set then has no card. *)
Definition fetchCardDataByIDFromScryfall
    (distinctCardNumbersBySet : obj (list str)) : obj (obj CardData) :=
  collectCardDataBySet
    (map
       (fun entry =>
          (fst entry,
           match getMultipleCardDataByID (fst entry) (snd entry) with
           | Returned cardData => cardData
           | Thrown _ => []
           end))
       distinctCardNumbersBySet).

End Fetchers.

(** Some digit of the string is followed at once by a white-space
    character. *)
Fixpoint digit_then_space (s : str) : bool :=
  match s with
  | [] => false
  | c :: s' =>
      (is_digit c && first_is is_space s') || digit_then_space s'
  end.

(** The text that [parseLines] matches against [lineMatchRE]: the text
    before the first comment delimiter when the line has one, else the
    line, without its set-code annotation and trimmed when it has one. *)
Definition textForEntry (line : str) : str :=
  if includes COMMENT_DELIMITER line
  then hd [] (split COMMENT_DELIMITER line)
  else if test lineWithSetCodes line
       then trim (remove_first setCodesRE line)
       else line.

(** [parts.join(sep)] for a one-character separator. *)
Fixpoint join (sep : char) (parts : list str) : str :=
  match parts with
  | [] => []
  | p :: rest =>
      match rest with
      | [] => p
      | _ :: _ => p ++ sep :: join sep rest
      end
  end.

(** A [key=value] setting of a comment line, and the keys that read as
    [set]. *)
Definition settingText (kv : str * str) : str :=
  fst kv ++ chr "=" :: snd kv.

Definition isSetKey (kv : str * str) : bool :=
  str_eqb (trim (fst kv)) (lit "set").

(** Neither the key nor the value holds a comma or an equals sign. *)
Definition plainSetting (kv : str * str) : bool :=
  negb (includes (chr ",") (fst kv) || includes (chr "=") (fst kv)
        || includes (chr ",") (snd kv) || includes (chr "=") (snd kv)).

(** The collector numbers that the lines give for a set code, in the order
    of the lines: a line counts when its number and its set code are not
    empty. *)
Definition numbersOfSet (setCode : str) (lines : list Line) : list str :=
  flat_map
    (fun line =>
       match cardNumber line, cardSetCode line with
       | Some num, Some code =>
           if (truthy num && truthy code && str_eqb code setCode)%bool
           then [num] else []
       | _, _ => []
       end)
    lines.

(** The name a heading line gives its section. *)
Definition sectionName (line : Line) : str :=
  match text line with
  | Some t => if truthy t then t else DEFAULT_SECTION_NAME
  | None => DEFAULT_SECTION_NAME
  end.

(** Each line that is no heading, with the name of the nearest heading
    before it, or with [current] when no heading comes before it. *)
Fixpoint placements (current : str) (lines : list Line)
    : list (str * Line) :=
  match lines with
  | [] => []
  | line :: rest =>
      if isSection line then placements (sectionName line) rest
      else (current, line) :: placements current rest
  end.

(** The lines placed under the name [s], in order. *)
Definition linesUnder (s : str) (placed : list (str * Line)) : list Line :=
  map snd (filter (fun p => str_eqb (fst p) s) placed).

(** The name of the section of the lines that come before any heading. *)
Definition defaultSection (isCollection : bool) : str :=
  if isCollection then lit "Collection: " else DEFAULT_SECTION_NAME.

(** How often [s] occurs in a list of section names. *)
Definition occurrences (s : str) (sections : list str) : nat :=
  count_occ (list_eq_dec N.eq_dec) sections s.


(* ================================================================== *)
(** * Strings, objects and sums *)
(* ================================================================== *)

Lemma str_eqb_eq (a b : str) : str_eqb a b = true <-> a = b.
Proof.
  unfold str_eqb. destruct (list_eq_dec N.eq_dec a b); split; congruence.
Qed.

Lemma str_eqb_neq (a b : str) : str_eqb a b = false <-> a <> b.
Proof.
  unfold str_eqb. destruct (list_eq_dec N.eq_dec a b); split; congruence.
Qed.

Lemma str_eqb_refl (a : str) : str_eqb a a = true.
Proof. now apply str_eqb_eq. Qed.

Section ObjFacts.

Context {V : Type}.

Lemma get_put_same (k : str) (v : V) (o : obj V) : get k (put k v o) = Some v.
Proof.
  induction o as [|[k' v'] o IH]; simpl.
  - now rewrite str_eqb_refl.
  - destruct (str_eqb k k') eqn:E; simpl; rewrite E; auto.
Qed.

Lemma get_put_other (k k' : str) (v : V) (o : obj V) :
  k' <> k -> get k' (put k v o) = get k' o.
Proof.
  intros Hne. induction o as [|[k0 v0] o IH]; simpl.
  - apply str_eqb_neq in Hne. now rewrite Hne.
  - destruct (str_eqb k k0) eqn:E; simpl.
    + apply str_eqb_eq in E. subst k0.
      apply str_eqb_neq in Hne. now rewrite Hne.
    + destruct (str_eqb k' k0); auto.
Qed.

Lemma put_not_empty (k : str) (v : V) (o : obj V) : put k v o <> [].
Proof.
  destruct o as [|[k' v'] o]; simpl; [discriminate|].
  destruct (str_eqb k k'); discriminate.
Qed.

Lemma keys_put (k k' : str) (v : V) (o : obj V) :
  In k (keys (put k' v o)) <-> k = k' \/ In k (keys o).
Proof.
  unfold keys. induction o as [|[k0 v0] o IH]; simpl.
  - split; [intros [<-|[]]; now left|intros [->|[]]; now left].
  - destruct (str_eqb k' k0) eqn:E; simpl.
    + apply str_eqb_eq in E. subst k0. split; [auto|].
      intros [->|D]; [now left|exact D].
    + rewrite IH. tauto.
Qed.

End ObjFacts.

Lemma sumZ_from (l : list Z) (a : Z) : fold_left Z.add l a = a + sumZ l.
Proof.
  unfold sumZ. revert a. induction l as [|x l IH]; intros a; simpl.
  - lia.
  - rewrite IH, (IH x). lia.
Qed.

Lemma sumZ_cons (x : Z) (l : list Z) : sumZ (x :: l) = x + sumZ l.
Proof. unfold sumZ at 1. simpl. apply sumZ_from. Qed.

Lemma sumZ_app (l1 l2 : list Z) : sumZ (l1 ++ l2) = sumZ l1 + sumZ l2.
Proof.
  induction l1 as [|x l1 IH]; simpl.
  - reflexivity.
  - rewrite !sumZ_cons, IH. lia.
Qed.

Lemma countOf_put_same (k : str) (n : Z) (o : CardCounts) :
  countOf (put k n o) k = n.
Proof. unfold countOf. now rewrite get_put_same. Qed.

Lemma countOf_put_other (k k' : str) (n : Z) (o : CardCounts) :
  k' <> k -> countOf (put k n o) k' = countOf o k'.
Proof. intros. unfold countOf. now rewrite get_put_other. Qed.

(** Adding [d] to the count of one key adds [d] to the sum of the values. *)
Lemma sumZ_values_add (k : str) (d : Z) (o : CardCounts) :
  sumZ (values (put k (countOf o k + d) o)) = sumZ (values o) + d.
Proof.
  unfold values, countOf.
  induction o as [|[k' v'] o IH]; simpl.
  - rewrite sumZ_cons. unfold sumZ. simpl. lia.
  - destruct (str_eqb k k') eqn:E; simpl.
    + rewrite !sumZ_cons. lia.
    + rewrite !sumZ_cons, IH. lia.
Qed.

(* ================================================================== *)
(** * The regular expressions of the classifier *)
(* ================================================================== *)

Lemma try_counts_none (k low : nat) (s : str)
    (rest : str -> option (list str)) :
  try_counts k low s rest = None
  <-> forall j, (j <= k)%nat -> (low <= j)%nat -> rest (skipn j s) = None.
Proof.
  induction k as [|k IH]; cbn [try_counts].
  - destruct (low <=? 0)%nat eqn:L.
    + apply Nat.leb_le in L.
      destruct (rest (skipn 0 s)) eqn:R.
      * split; [discriminate|]. intros Hall.
        specialize (Hall 0%nat (Nat.le_refl _) L). congruence.
      * split; [|reflexivity]. intros _ j Hj Hl.
        assert (j = 0)%nat by lia. now subst.
    + apply Nat.leb_gt in L. split; [|reflexivity]. intros _ j Hj Hl. lia.
  - destruct (low <=? S k)%nat eqn:L.
    + apply Nat.leb_le in L.
      destruct (rest (skipn (S k) s)) eqn:R.
      * split; [discriminate|]. intros Hall.
        specialize (Hall (S k) (Nat.le_refl _) L). congruence.
      * rewrite IH. split; intros Hall j Hj Hl.
        -- destruct (Nat.eq_dec j (S k)) as [->|]; [assumption|].
           apply Hall; lia.
        -- apply Hall; lia.
    + apply Nat.leb_gt in L. rewrite IH. split; intros Hall j Hj Hl.
      * apply Hall; lia.
      * apply Hall; lia.
Qed.

Lemma run_length_le (p : char -> bool) (s : str) :
  (run_length p s <= List.length s)%nat.
Proof.
  induction s as [|c s IH]; simpl; [lia|]. destruct (p c); simpl; lia.
Qed.

Lemma run_length_all (p : char -> bool) (s : str) :
  run_length p s = List.length s <-> forallb p s = true.
Proof.
  induction s as [|c s IH]; simpl; [tauto|].
  destruct (p c); simpl.
  - rewrite <- IH. split; lia.
  - split; [lia|discriminate].
Qed.

Lemma skipn_nil_iff (j : nat) (s : str) :
  skipn j s = [] <-> (List.length s <= j)%nat.
Proof.
  revert s. induction j as [|j IH]; intros [|c s]; simpl;
    try (split; [lia|reflexivity]).
  - split; [discriminate|lia].
  - rewrite IH. lia.
Qed.

(** A pattern that is one class repeated at least once and then the end
    of the string matches exactly the non-empty strings of the class. *)
Lemma match_plus_to_end (p : char -> bool) (s : str) :
  isSome (match_items true [plus p] s)
  = (negb (Nat.eqb (List.length s) 0) && forallb p s)%bool.
Proof.
  simpl. unfold greedy. simpl.
  destruct (try_counts (run_length p s) 1 s _) eqn:T; simpl.
  - symmetry. apply andb_true_iff.
    assert (N : try_counts (run_length p s) 1 s
                  (fun s0 => match s0 with [] => Some [] | _ :: _ => None end)
                <> None) by congruence.
    rewrite try_counts_none in N.
    assert (E : exists j, (j <= run_length p s)%nat /\ (1 <= j)%nat
                          /\ skipn j s = []).
    { clear T.
      assert (D : forall k, (k <= run_length p s)%nat ->
                (exists j, (j <= k)%nat /\ (1 <= j)%nat /\ skipn j s = [])
                \/ forall j, (j <= k)%nat -> (1 <= j)%nat -> skipn j s <> []).
      { induction k as [|k IHk]; intros Hk.
        - right. intros j Hj H1. lia.
        - destruct IHk as [(j & Hj & H1 & Hs)|Hn]; [lia| |].
          + left. exists j. repeat split; auto.
          + destruct (skipn (S k) s) eqn:Sk.
            * left. exists (S k). repeat split; auto. lia.
            * right. intros j Hj H1.
              destruct (Nat.eq_dec j (S k)) as [->|];
                [congruence|apply Hn; lia]. }
      destruct (D (run_length p s) (Nat.le_refl _)) as [E|Hn]; [exact E|].
      exfalso. apply N. intros j Hj H1.
      specialize (Hn j Hj H1). destruct (skipn j s); congruence. }
    destruct E as (j & Hj & H1 & Hs).
    apply skipn_nil_iff in Hs. pose proof (run_length_le p s) as Hle.
    split.
    + apply negb_true_iff, Nat.eqb_neq. lia.
    + apply run_length_all. lia.
  - symmetry. apply not_true_iff_false. intros B.
    apply andb_true_iff in B. destruct B as [B1 B2].
    apply negb_true_iff, Nat.eqb_neq in B1.
    apply run_length_all in B2.
    rewrite try_counts_none in T.
    specialize (T (run_length p s) (Nat.le_refl _)).
    rewrite B2 in T. rewrite skipn_all in T.
    assert (1 <= List.length s)%nat by lia.
    specialize (T H). discriminate.
Qed.

(** [blankLineRE] matches the non-empty strings of white space. *)
Lemma test_blankLineRE (line : str) :
  test blankLineRE line
  = (negb (Nat.eqb (List.length line) 0) && forallb is_space line)%bool.
Proof.
  unfold test, exec. simpl anchor_start. cbv iota.
  rewrite <- match_plus_to_end.
  change (items blankLineRE) with [plus is_space].
  change (anchor_end blankLineRE) with true.
  now destruct (match_items true [plus is_space] line).
Qed.

(** [headingMatchRE] looks at the first character only. *)
Lemma test_headingMatchRE (line : str) :
  test headingMatchRE line = first_is is_heading_start line.
Proof.
  unfold test, exec. simpl. unfold greedy. simpl.
  destruct line as [|c s]; simpl; [reflexivity|].
  destruct (is_heading_start c); simpl; [|reflexivity].
  now destruct (run_length is_heading_start s).
Qed.

Lemma last_is_all (p : char -> bool) (s : str) :
  s <> [] -> forallb p s = true -> last_is p s = true.
Proof.
  induction s as [|c s IH]; [congruence|]. intros _ A. simpl in A.
  apply andb_true_iff in A. destruct A as [A1 A2].
  simpl. destruct s; [assumption|]. apply IH; [discriminate|assumption].
Qed.

(** [numberRE] has no anchor at the start: it matches when the string ends
    with a digit. *)
Lemma search_numberRE (s : str) :
  forall before, isSome (search_from numberRE before s) = last_is is_digit s.
Proof.
  induction s as [|c s IH]; intros before.
  - reflexivity.
  - cbn [search_from].
    change (items numberRE) with [plus is_digit].
    change (anchor_end numberRE) with true.
    pose proof (match_plus_to_end is_digit (c :: s)) as M.
    destruct (match_items true [plus is_digit] (c :: s)) eqn:E.
    + simpl isSome in *. symmetry in M. apply andb_true_iff in M.
      symmetry. apply last_is_all; [discriminate|tauto].
    + rewrite IH. simpl isSome in M.
      destruct s as [|d s]; [|reflexivity].
      simpl in *. destruct (is_digit c); [discriminate|reflexivity].
Qed.

Lemma test_numberRE (line : str) :
  test numberRE line = last_is is_digit line.
Proof.
  unfold test, exec. simpl anchor_start. cbv iota.
  rewrite <- (search_numberRE line []).
  now destruct (search_from numberRE [] line).
Qed.

(** The search on a few strings: the leftmost match wins, a quantifier
    gives back characters when the rest of the pattern needs them, and the
    last [set] setting of a comment wins. *)
Example exec_lineMatchRE_leftmost :
  exec lineMatchRE (lit "[x] 12 Forest 3 ")
  = Some (lit "[x] ", [lit "12"; lit " "; lit "Forest 3 "]).
Proof. reflexivity. Qed.

Example exec_lineMatchRE_skips_digits_without_space :
  exec lineMatchRE (lit "12a 34 b")
  = Some (lit "12a ", [lit "34"; lit " "; lit "b"]).
Proof. reflexivity. Qed.

Example test_lineWithSetCodes_gives_back :
  test lineWithSetCodes (lit "4 Lightning Bolt (M10) 133 x") = true
  /\ trim (remove_first setCodesRE (lit "4 Lightning Bolt (M10) 133 "))
     = lit "4 Lightning Bolt".
Proof. split; reflexivity. Qed.

Example extractSetCode_last_setting_wins :
  extractSetCode (lit "# a=b, set = war ,set=m19") = lit "m19"
  /\ extractSetCode (lit "# set=war,set=") = []
  /\ extractSetCode (lit "# set=a=b") = [].
Proof. repeat split; reflexivity. Qed.

(* ================================================================== *)
(** * The parser *)
(* ================================================================== *)

Section ParserFacts.

Variable nameToId : option str -> str.

Lemma parseFrom_length (cardCounts : CardCounts) (rawLines : list str) :
  forall st,
    List.length (parseFrom nameToId cardCounts st rawLines)
    = List.length rawLines.
Proof.
  induction rawLines as [|line rest IH]; intros st; simpl.
  - reflexivity.
  - destruct (parseLine nameToId cardCounts st line) as [parsed st'].
    simpl. now rewrite IH.
Qed.

Lemma parseFrom_nth (cardCounts : CardCounts) (rawLines : list str) :
  forall st i,
    nth_error (parseFrom nameToId cardCounts st rawLines) i
    = option_map
        (fun line =>
           fst (parseLine nameToId cardCounts
                  (carried nameToId cardCounts st (firstn i rawLines))
                  line))
        (nth_error rawLines i).
Proof.
  induction rawLines as [|line rest IH]; intros st i; simpl.
  - now destruct i.
  - destruct (parseLine nameToId cardCounts st line) as [parsed st'] eqn:E.
    destruct i as [|i]; simpl.
    + now rewrite E.
    + rewrite IH. unfold carried. simpl. now rewrite E.
Qed.

Lemma parseFrom_app (cardCounts : CardCounts) (l1 l2 : list str) :
  forall st,
    parseFrom nameToId cardCounts st (l1 ++ l2)
    = parseFrom nameToId cardCounts st l1
      ++ parseFrom nameToId cardCounts (carried nameToId cardCounts st l1) l2.
Proof.
  induction l1 as [|line rest IH]; intros st; simpl.
  - reflexivity.
  - unfold carried. simpl.
    destruct (parseLine nameToId cardCounts st line) as [parsed st'].
    simpl. now rewrite IH.
Qed.

(** What the callback does to [currentSetCode], for each line. *)
Lemma parseLine_carried (cardCounts : CardCounts) (st line : str) :
  snd (parseLine nameToId cardCounts st line)
  = if (isComment (fst (parseLine nameToId cardCounts st line))
        && truthy (extractSetCode line))%bool
    then extractSetCode line else st.
Proof.
  unfold parseLine.
  destruct (Nat.eqb (List.length line) 0 || test blankLineRE line)%bool;
    [reflexivity|].
  destruct (test headingMatchRE line); [reflexivity|].
  destruct (startsWith [COMMENT_DELIMITER; chr " "] line).
  - simpl. now destruct (truthy (extractSetCode line)).
  - destruct (test numberRE line); [reflexivity|].
    destruct (exec lineMatchRE _) as [[before lineParts]|]; reflexivity.
Qed.

(** The records that carry a collector number are those of the
    [numberRE] branch. *)
Lemma parseLine_number (cardCounts : CardCounts) (st line : str) :
  cardNumber (fst (parseLine nameToId cardCounts st line)) <> None ->
  fst (parseLine nameToId cardCounts st line)
  = mkLine card (Some 1) (Some None) None (Some (trim line)) (Some st) None
      None (Some line).
Proof.
  unfold parseLine.
  destruct (Nat.eqb (List.length line) 0 || test blankLineRE line)%bool;
    [simpl; congruence|].
  destruct (test headingMatchRE line); [simpl; congruence|].
  destruct (startsWith [COMMENT_DELIMITER; chr " "] line);
    [simpl; congruence|].
  destruct (test numberRE line); [reflexivity|].
  destruct (exec lineMatchRE _) as [[before lineParts]|]; simpl; congruence.
Qed.

(** X1: the shape the classifier gives a line, by the tests it makes in
    order: white space only; a first character outside the class of
    [headingMatchRE]; the comment delimiter and a space; a digit at the
    end; anything else is a card entry or an invalid line. *)
Theorem parseLine_shape (cardCounts : CardCounts) (st line : str) :
  let parsed := fst (parseLine nameToId cardCounts st line) in
  if forallb is_space line then
    parsed = mkLine blank None None None None None None None None
  else if first_is is_heading_start line then
    parsed = mkLine section None None None None None None None (Some line)
  else if startsWith [COMMENT_DELIMITER; chr " "] line then
    parsed = mkLine comment None None None None None (Some [line]) None None
  else if last_is is_digit line then
    parsed = mkLine card (Some 1) (Some None) None (Some (trim line))
               (Some st) None None (Some line)
  else
    cardNumber parsed = None
    /\ (lineType parsed = card \/ lineType parsed = error).
Proof.
  unfold parseLine.
  rewrite test_blankLineRE, test_headingMatchRE, test_numberRE.
  replace (Nat.eqb (List.length line) 0
           || negb (Nat.eqb (List.length line) 0) && forallb is_space line)%bool
    with (forallb is_space line)
    by (destruct line; simpl; [reflexivity|now destruct (is_space c)]).
  destruct (forallb is_space line); [reflexivity|].
  destruct (first_is is_heading_start line); [reflexivity|].
  destruct (startsWith [COMMENT_DELIMITER; chr " "] line); [reflexivity|].
  destruct (last_is is_digit line); [reflexivity|].
  destruct (exec lineMatchRE _) as [[before lineParts]|]; simpl; auto.
Qed.

(** ** C2 *)

(** C2: [parseLines] returns one record per input line, in input order: the
    output is as long as the input, and its i-th record is the record of
    the i-th line, read with the set code that the lines before it left.
    [parseLines] is a total function of its two arguments: no line makes
    the parse abort, and parsing the same input again gives the same
    output. *)
Theorem parseLines_one_record_per_line (rawLines : list str)
    (cardCounts : CardCounts) :
  List.length (parseLines nameToId rawLines cardCounts) = List.length rawLines
  /\ (forall i,
        nth_error (parseLines nameToId rawLines cardCounts) i
        = option_map
            (fun line =>
               fst (parseLine nameToId cardCounts
                      (carried nameToId cardCounts [] (firstn i rawLines))
                      line))
            (nth_error rawLines i)).
Proof.
  unfold parseLines. split.
  - apply parseFrom_length.
  - intros i. apply parseFrom_nth.
Qed.

(** ** C8 *)

(** C8: the carried set code is empty when the parse starts; after each
    line it is the non-empty value that [extractSetCode] found, when the
    line was read as a comment and that value is not empty, and otherwise
    what it was before the line, whatever the shape of the line; a line
    that carries a collector number records the set code carried so far. *)
Theorem currentSetCode_changes_only_on_set_comment (cardCounts : CardCounts)
    (rawLines : list str) (line : str) :
  let before := carried nameToId cardCounts [] rawLines in
  let parsed := fst (parseLine nameToId cardCounts before line) in
  parseLines nameToId [line] cardCounts
  = [fst (parseLine nameToId cardCounts [] line)]
  /\ parseLines nameToId (rawLines ++ [line]) cardCounts
     = parseLines nameToId rawLines cardCounts ++ [parsed]
  /\ carried nameToId cardCounts [] (rawLines ++ [line])
     = (if (isComment parsed && truthy (extractSetCode line))%bool
        then extractSetCode line else before)
  /\ (cardNumber parsed = None \/ cardSetCode parsed = Some before).
Proof.
  intros before parsed. repeat split.
  - unfold parseLines. simpl.
    now destruct (parseLine nameToId cardCounts [] line).
  - unfold parseLines. rewrite parseFrom_app. simpl.
    fold before. subst parsed.
    now destruct (parseLine nameToId cardCounts before line).
  - unfold carried. rewrite fold_left_app. simpl.
    apply parseLine_carried.
  - destruct (cardNumber parsed) eqn:E; [right|now left].
    subst parsed. rewrite parseLine_number; [reflexivity|congruence].
Qed.

(** ** C7 *)

(** C7, as the code has it: the line "3 Shock # great removal" parses to one
    card record with count 3, the comment " great removal" and no error,
    under every ledger; its name is "Shock " with the space before the
    comment delimiter, since the remainder after the count is not
    trimmed. *)
Theorem parse_shock_with_comment (cardCounts : CardCounts) :
  parseLines nameToId [lit "3 Shock # great removal"] cardCounts
  = [mkLine card (Some 3)
       (Some (if shouldSkipGlobalCounts cardCounts then None
              else Some (countOf cardCounts
                           (nameToId (Some (lit "Shock "))))))
       (Some (lit "Shock ")) None None (Some [lit " great removal"])
       (Some []) None].
Proof. vm_compute. reflexivity. Qed.

End ParserFacts.

(* ================================================================== *)
(** * Sections *)
(* ================================================================== *)

Lemma inherited_defaultSection (isCollection : bool) :
  inherited (defaultSection isCollection) = false.
Proof. now destruct isCollection. Qed.

Lemma groupStep_eq (current : str) (sections : list str)
    (linesBySection : obj (list Line)) (line : Line) :
  groupStep (current, sections, linesBySection) line
  = if isSection line
    then Returned
           (sectionName line, sections ++ [sectionName line], linesBySection)
    else match get current linesBySection with
         | Some bucket =>
             Returned
               (current, sections,
                put current (bucket ++ [line]) linesBySection)
         | None =>
             if inherited current then Thrown TypeError
             else Returned
                    (current, sections, put current [line] linesBySection)
         end.
Proof. reflexivity. Qed.

Lemma In_linesUnder (s : str) (line : Line) (placed : list (str * Line)) :
  In line (linesUnder s placed) <-> In (s, line) placed.
Proof.
  unfold linesUnder. rewrite in_map_iff. split.
  - intros ([s' l] & E & Hin). apply filter_In in Hin.
    destruct Hin as [Hin Hs]. simpl in *. apply str_eqb_eq in Hs.
    now subst.
  - intros Hin. exists (s, line). split; [reflexivity|].
    apply filter_In. split; [assumption|]. apply str_eqb_refl.
Qed.

Lemma placements_In (lines : list Line) :
  forall current s line,
    In (s, line) (placements current lines) ->
    In line lines /\ isSection line = false.
Proof.
  induction lines as [|l rest IH]; intros current s line; cbn [placements].
  - intros [].
  - destruct (isSection l) eqn:S.
    + intros Hin. destruct (IH _ _ _ Hin). split; [now right|assumption].
    + intros [E|Hin].
      * inversion E; subst. split; [now left|assumption].
      * destruct (IH _ _ _ Hin). split; [now right|assumption].
Qed.


(** The name under which a line is filed is the one in force at the
    start, when the first line is no heading, or the name of a heading. *)
Lemma placements_name (lines : list Line) :
  forall current s line,
    In (s, line) (placements current lines) ->
    (s = current
     /\ match lines with
        | first :: _ => isSection first = false
        | [] => False
        end)
    \/ In s (map sectionName (filter isSection lines)).
Proof.
  induction lines as [|l rest IH]; intros current s line;
    cbn [placements filter].
  - intros [].
  - destruct (isSection l) eqn:S.
    + intros Hin. right. cbn [map].
      destruct (IH _ _ _ Hin) as [[-> _]|Hh]; [now left|now right].
    + intros [E|Hin].
      * inversion E; subst. left. auto.
      * destruct (IH _ _ _ Hin) as [[-> _]|Hh]; [left; auto|now right].
Qed.

Local Abbreviation grouped sections linesBySection placed headings out :=
  (match out with
   | Thrown _ => exists line s, In (s, line) placed /\ inherited s = true
   | Returned g =>
       (forall s line, In (s, line) placed -> inherited s = false)
       /\ snd (fst g) = sections ++ headings
       /\ forall s,
            (match get s (snd g) with Some b => b | None => [] end
             = match get s linesBySection with Some b => b | None => [] end
               ++ linesUnder s placed)
            /\ (get s (snd g) = None
                <-> get s linesBySection = None /\ linesUnder s placed = [])
   end).

(** The first [forEach] of [render], from any state that holds no member
    of [Object.prototype] as an own property. *)
Lemma groupStep_foldM (lines : list Line) :
  forall current sections linesBySection,
    (forall k, inherited k = true -> get k linesBySection = None) ->
    grouped sections linesBySection (placements current lines)
      (map sectionName (filter isSection lines))
      (foldM groupStep lines (current, sections, linesBySection)).
Proof.
  induction lines as [|line rest IH]; intros current sections lbs Hinv;
    cbn [foldM].
  - cbn [placements filter map]. split; [intros s line []|].
    split; [now rewrite app_nil_r|].
    intros s. unfold linesUnder. simpl. rewrite app_nil_r. tauto.
  - rewrite groupStep_eq. cbn [placements filter].
    destruct (isSection line) eqn:S.
    + cbn [bind].
      specialize (IH (sectionName line) (sections ++ [sectionName line])
                    lbs Hinv).
      destruct (foldM groupStep rest _) as [g|e]; [|exact IH].
      destruct IH as (A & B & C). split; [exact A|]. split; [|exact C].
      rewrite B. cbn [map]. now rewrite <- app_assoc.
    + assert (Go : inherited current = false ->
                   forall b0,
                     b0 = match get current lbs with
                          | Some b => b
                          | None => []
                          end ->
                     grouped sections lbs
                       ((current, line) :: placements current rest)
                       (map sectionName (filter isSection rest))
                       (foldM groupStep rest
                          (current, sections,
                           put current (b0 ++ [line]) lbs))).
      { intros I b0 Hb0.
        assert (Hinv' : forall k,
                   inherited k = true ->
                   get k (put current (b0 ++ [line]) lbs) = None).
        { intros k Hk. rewrite get_put_other; [now apply Hinv|].
          intros ->. congruence. }
        specialize (IH current sections _ Hinv').
        destruct (foldM groupStep rest _) as [g|e].
        - destruct IH as (A & B & C). split; [|split; [exact B|]].
          + intros s l [E|Hin].
            * inversion E; subst. exact I.
            * exact (A _ _ Hin).
          + intros s. destruct (C s) as [C1 C2]. rewrite C1, C2.
            unfold linesUnder. cbn [filter fst].
            destruct (str_eqb current s) eqn:E.
            * apply str_eqb_eq in E. subst s. rewrite get_put_same.
              cbn [map snd]. rewrite Hb0, <- app_assoc.
              split; [reflexivity|].
              split; [intros [D _]; discriminate|intros [_ D]; discriminate].
            * apply str_eqb_neq in E.
              rewrite get_put_other by congruence. tauto.
        - destruct IH as (l & s & Hin & Hs). exists l, s.
          split; [right; exact Hin|exact Hs]. }
      destruct (get current lbs) as [bucket|] eqn:G.
      * cbn [bind]. apply Go; [|reflexivity].
        destruct (inherited current) eqn:I; [|reflexivity].
        rewrite (Hinv _ I) in G. discriminate.
      * destruct (inherited current) eqn:I; cbn [bind].
        -- exists line, current. split; [now left|exact I].
        -- apply (Go eq_refl [] eq_refl).
Qed.

(** The sections and the buckets of [groupLines]. *)
Lemma groupLines_spec (isCollection : bool) (parsedLines : list Line) :
  match groupLines isCollection parsedLines with
  | Thrown _ =>
      exists line s,
        In (s, line) (placements (defaultSection isCollection) parsedLines)
        /\ inherited s = true
  | Returned g =>
      (forall s line,
          In (s, line) (placements (defaultSection isCollection) parsedLines)
          -> inherited s = false)
      /\ snd (fst g)
         = (match parsedLines with
            | line :: _ =>
                if isSection line then [] else [defaultSection isCollection]
            | [] => []
            end) ++ map sectionName (filter isSection parsedLines)
      /\ forall s,
           get s (snd g)
           = match linesUnder s
                     (placements (defaultSection isCollection) parsedLines)
             with
             | [] => None
             | line :: rest => Some (line :: rest)
             end
  end.
Proof.
  unfold groupLines. fold (defaultSection isCollection).
  match goal with
  | |- context [foldM groupStep parsedLines (?c, ?secs, ?l)] =>
      pose proof (groupStep_foldM parsedLines c secs l
                    (fun k _ => eq_refl)) as P
  end.
  destruct (foldM groupStep parsedLines _) as [g|e]; [|exact P].
  destruct P as (A & B & C). split; [exact A|]. split; [exact B|].
  intros s. destruct (C s) as [C1 C2]. simpl in C1, C2.
  destruct (linesUnder s _) as [|line rest] eqn:U.
  - apply C2. auto.
  - destruct (get s (snd g)) as [b|] eqn:G.
    + now rewrite C1.
    + destruct (proj1 C2 eq_refl) as [_ D]. discriminate.
Qed.

(** Every bucket of [groupLines] is made of lines of the input. *)
Lemma groupLines_buckets (P : Line -> Prop) (isCollection : bool)
    (parsedLines : list Line) (g : Grouping) :
  Forall P parsedLines ->
  groupLines isCollection parsedLines = Returned g ->
  forall s bucket, get s (snd g) = Some bucket -> Forall P bucket.
Proof.
  intros Hall Hg s bucket Hb.
  pose proof (groupLines_spec isCollection parsedLines) as Spec.
  rewrite Hg in Spec. destruct Spec as (_ & _ & C). rewrite C in Hb.
  apply Forall_forall. intros line Hin.
  rewrite Forall_forall in Hall. apply Hall.
  assert (Hu : In line
                 (linesUnder s
                    (placements (defaultSection isCollection) parsedLines))).
  { destruct (linesUnder s _); [discriminate|].
    injection Hb as <-. exact Hin. }
  apply In_linesUnder in Hu. now apply placements_In in Hu.
Qed.


(* ================================================================== *)
(** * The reconciliation pass *)
(* ================================================================== *)

Section RenderFacts.

Variable nameToId : option str -> str.
Variable UNKNOWN_CARD : str.
Context {F : Type} `{Number F}.

Section WithCatalog.

Variable cardDataByCardId : Catalog.
Variable settings : DecklistSettings.

Local Abbreviation step := (renderLine nameToId cardDataByCardId settings).

Lemma renderLine_sectionMissing (section : str) (totals : Totals)
    (sm : CardCounts) (line : Line) (cardId : str) :
  countOf (snd (step section (totals, sm) line)) cardId
  = countOf sm cardId
    + (if hasId nameToId cardId line then lineDeficit line else 0).
Proof.
  unfold renderLine, lineDeficit, hasId, isCard.
  destruct (lineType line); simpl; try (destruct (str_eqb _ _); lia).
  destruct (insufficient line); simpl.
  - destruct (str_eqb (nameToId (cardName line)) cardId) eqn:E.
    + apply str_eqb_eq in E. subst cardId. now rewrite countOf_put_same.
    + apply str_eqb_neq in E. rewrite countOf_put_other by congruence. lia.
  - destruct (str_eqb _ _); lia.
Qed.

Lemma renderLine_missing (section : str) (totals : Totals)
    (sm : CardCounts) (line : Line) (cardId : str) :
  countOf (missingCardCounts (fst (step section (totals, sm) line))) cardId
  = countOf (missingCardCounts totals) cardId
    + (if hasId nameToId cardId line then lineDeficit line else 0).
Proof.
  unfold renderLine, lineDeficit, hasId, isCard.
  destruct (lineType line); simpl; try (destruct (str_eqb _ _); lia).
  destruct (insufficient line); simpl.
  - destruct (str_eqb (nameToId (cardName line)) cardId) eqn:E.
    + apply str_eqb_eq in E. subst cardId. now rewrite countOf_put_same.
    + apply str_eqb_neq in E. rewrite countOf_put_other by congruence. lia.
  - destruct (str_eqb _ _); lia.
Qed.

Lemma renderLine_sum (section : str) (totals : Totals) (sm : CardCounts)
    (line : Line) :
  sumZ (values (snd (step section (totals, sm) line)))
  = sumZ (values sm) + lineDeficit line.
Proof.
  unfold renderLine, lineDeficit, isCard.
  destruct (lineType line); simpl; try lia.
  destruct (insufficient line); simpl; [|lia].
  apply sumZ_values_add.
Qed.

Lemma renderLine_count (section : str) (totals : Totals) (sm : CardCounts)
    (line : Line) :
  countOf (sectionTotalCounts (fst (step section (totals, sm) line))) section
  = countOf (sectionTotalCounts totals) section + lineCount line.
Proof.
  unfold renderLine, lineCount, isCard.
  destruct (lineType line); simpl; try lia.
  now rewrite countOf_put_same.
Qed.

(** The same, over the lines of a bucket. *)
Lemma fold_renderLine (section : str) (bucket : list Line) :
  forall (totals : Totals) (sm : CardCounts),
    let st := fold_left (step section) bucket (totals, sm) in
    (forall cardId,
        countOf (snd st) cardId
        = countOf sm cardId
          + sumZ (map lineDeficit (filter (hasId nameToId cardId) bucket)))
    /\ (forall cardId,
        countOf (missingCardCounts (fst st)) cardId
        = countOf (missingCardCounts totals) cardId
          + sumZ (map lineDeficit (filter (hasId nameToId cardId) bucket)))
    /\ sumZ (values (snd st)) = sumZ (values sm) + sumZ (map lineDeficit bucket)
    /\ countOf (sectionTotalCounts (fst st)) section
       = countOf (sectionTotalCounts totals) section
         + sumZ (map lineCount bucket).
Proof.
  induction bucket as [|line rest IH]; intros totals sm; cbn [fold_left].
  - unfold sumZ. simpl. repeat split; intros; lia.
  - destruct (step section (totals, sm) line) as [totals1 sm1] eqn:E.
    specialize (IH totals1 sm1). cbv zeta in IH |- *.
    destruct IH as (IH1 & IH2 & IH3 & IH4).
    pose proof (renderLine_sectionMissing section totals sm line) as L1.
    pose proof (renderLine_missing section totals sm line) as L2.
    pose proof (renderLine_sum section totals sm line) as L3.
    pose proof (renderLine_count section totals sm line) as L4.
    rewrite E in L1, L2, L3, L4. simpl in L1, L2, L3, L4.
    repeat split.
    + intros cardId. rewrite IH1, L1. cbn [filter].
      destruct (hasId nameToId cardId line); cbn [map];
        rewrite ?sumZ_cons; lia.
    + intros cardId. rewrite IH2, L2. cbn [filter].
      destruct (hasId nameToId cardId line); cbn [map];
        rewrite ?sumZ_cons; lia.
    + rewrite IH3, L3. cbn [map]. rewrite sumZ_cons. lia.
    + rewrite IH4, L4. cbn [map]. rewrite sumZ_cons. lia.
Qed.

(** ** C10 *)


(** ** Deficits *)







(** ** What a line adds to the missing counts *)









(** ** C1 *)


(** ** The records of the parser and of the collection resolution *)

Lemma countOf_ledger_ok (cardCounts : CardCounts) (cardId : str) :
  ledger_ok cardCounts -> 0 <= countOf cardCounts cardId.
Proof.
  intros Hok. unfold countOf.
  destruct (get cardId cardCounts) eqn:G; [eapply Hok; eauto|lia].
Qed.



Lemma resolveLines_tracked_ok (cardCounts : CardCounts)
    (fetched : obj (obj CardData)) (parsedLines : list Line) :
  ledger_ok cardCounts ->
  Forall tracked_ok parsedLines ->
  forall catalog r,
    resolveLines nameToId cardCounts fetched catalog parsedLines = Returned r ->
    Forall tracked_ok (fst r).
Proof.
  intros Hok. induction 1 as [|line rest Hl _ IH]; intros catalog r; simpl.
  - intros [= <-]. constructor.
  - destruct (resolveLine nameToId cardCounts fetched catalog line)
      as [[line' catalog']|] eqn:E; simpl; [|discriminate].
    destruct (resolveLines nameToId cardCounts fetched catalog' rest)
      as [[rest' catalog'']|] eqn:E'; simpl; [|discriminate].
    intros [= <-]. simpl. constructor.
    + unfold resolveLine in E.
      destruct (cardNumber line) as [num|]; [|now inversion E; subst].
      destruct (cardSetCode line) as [setCode|]; [|now inversion E; subst].
      destruct (isCard line && truthy num && truthy setCode)%bool eqn:C;
        [|now inversion E; subst].
      destruct (get setCode fetched); [|discriminate].
      inversion E; subst. unfold tracked_ok, isCard in *. simpl.
      intros Hc. destruct (shouldSkipGlobalCounts cardCounts); [auto|].
      right. eexists. split; [reflexivity|]. now apply countOf_ledger_ok.
    + apply (IH catalog' (rest', catalog'') E').
Qed.

(** ** Records without an owned count *)

Ltac solve_untracked :=
  split;
  [ intros n; simpl; intros E; discriminate E
  | simpl; intros E; first [reflexivity | discriminate E] ].

Lemma parseLine_untracked (cardCounts : CardCounts) (st line : str) :
  shouldSkipGlobalCounts cardCounts = true ->
  untracked (fst (parseLine nameToId cardCounts st line)).
Proof.
  intros Hskip. unfold parseLine. rewrite Hskip.
  destruct (Nat.eqb (List.length line) 0 || test blankLineRE line)%bool;
    [solve_untracked|].
  destruct (test headingMatchRE line); [solve_untracked|].
  destruct (startsWith [COMMENT_DELIMITER; chr " "] line);
    [solve_untracked|].
  destruct (test numberRE line); [solve_untracked|].
  destruct (exec lineMatchRE _) as [[before lineParts]|]; solve_untracked.
Qed.

Lemma parseFrom_untracked (cardCounts : CardCounts) (rawLines : list str) :
  shouldSkipGlobalCounts cardCounts = true ->
  forall st, Forall untracked (parseFrom nameToId cardCounts st rawLines).
Proof.
  intros Hskip. induction rawLines as [|line rest IH]; intros st; simpl.
  - constructor.
  - pose proof (parseLine_untracked cardCounts st line Hskip) as Hl.
    destruct (parseLine nameToId cardCounts st line) as [parsed st'].
    constructor; [exact Hl|apply IH].
Qed.

Lemma resolveLines_untracked (cardCounts : CardCounts)
    (fetched : obj (obj CardData)) (parsedLines : list Line) :
  shouldSkipGlobalCounts cardCounts = true ->
  Forall untracked parsedLines ->
  forall catalog r,
    resolveLines nameToId cardCounts fetched catalog parsedLines = Returned r ->
    Forall untracked (fst r).
Proof.
  intros Hskip. induction 1 as [|line rest Hl _ IH]; intros catalog r; simpl.
  - intros [= <-]. constructor.
  - destruct (resolveLine nameToId cardCounts fetched catalog line)
      as [[line' catalog']|] eqn:E; simpl; [|discriminate].
    destruct (resolveLines nameToId cardCounts fetched catalog' rest)
      as [[rest' catalog'']|] eqn:E'; simpl; [|discriminate].
    intros [= <-]. simpl. constructor.
    + unfold resolveLine in E. rewrite Hskip in E.
      destruct (cardNumber line) as [num|]; [|now inversion E; subst].
      destruct (cardSetCode line) as [setCode|]; [|now inversion E; subst].
      destruct (isCard line && truthy num && truthy setCode)%bool eqn:C;
        [|now inversion E; subst].
      destruct (get setCode fetched); [|discriminate].
      inversion E; subst. destruct Hl as [Hl1 Hl2].
      split; simpl; assumption.
    + apply (IH catalog' (rest', catalog'') E').
Qed.

Lemma renderLine_untracked (section : str) (totals : Totals)
    (sm : CardCounts) (line : Line) :
  untracked line ->
  missingCardCounts (fst (step section (totals, sm) line))
  = missingCardCounts totals
  /\ snd (step section (totals, sm) line) = sm.
Proof.
  intros [_ Hnull]. unfold renderLine, isCard in *.
  destruct (lineType line); try (split; reflexivity).
  unfold insufficient, lineGlobalCount. rewrite (Hnull eq_refl).
  split; reflexivity.
Qed.

Lemma renderSection_untracked (section : str) (bucket : list Line)
    (totals : Totals) :
  Forall untracked bucket ->
  missingCardCounts
    (fst (renderSection nameToId cardDataByCardId settings section bucket
            totals))
  = missingCardCounts totals.
Proof.
  intros Hall. unfold renderSection.
  assert (G : forall sm,
             missingCardCounts
               (fst (fold_left (step section) bucket (totals, sm)))
             = missingCardCounts totals).
  { revert totals. induction Hall as [|line rest Hl _ IH]; intros totals sm.
    - reflexivity.
    - cbn [fold_left].
      destruct (renderLine_untracked section totals sm line Hl) as [E1 E2].
      destruct (step section (totals, sm) line) as [totals1 sm1].
      simpl in E1, E2. rewrite IH. exact E1. }
  specialize (G []).
  match goal with
  | |- context [fold_left ?f bucket ?i] => set (st := fold_left f bucket i)
  end.
  change (fold_left (step section) bucket (totals, [])) with st in G.
  clearbody st. destruct st as [totals' sm]. exact G.
Qed.

Lemma renderSections_untracked (linesBySection : obj (list Line))
    (sections : list str) :
  (forall s bucket,
      get s linesBySection = Some bucket -> Forall untracked bucket) ->
  forall totals r,
    renderSections nameToId cardDataByCardId settings linesBySection
      sections totals = Returned r ->
    missingCardCounts (fst r) = missingCardCounts totals.
Proof.
  intros Hb. induction sections as [|s rest IH]; intros totals r; simpl.
  - now intros [= <-].
  - destruct (get s linesBySection) as [bucket|] eqn:G; [|discriminate].
    pose proof (renderSection_untracked s bucket totals (Hb _ _ G)) as M.
    destruct (renderSection _ _ _ s bucket totals) as [totals' view].
    destruct (renderSections _ _ _ linesBySection rest totals')
      as [r'|] eqn:R; simpl; [|discriminate].
    intros [= <-]. simpl. rewrite (IH _ _ R). exact M.
Qed.

Lemma render_untracked (workspace : option Workspace)
    (parsedLines : list Line) (isCollection : bool) (r : Rendered) :
  Forall untracked parsedLines ->
  render nameToId UNKNOWN_CARD cardDataByCardId settings workspace
    parsedLines isCollection = Returned r ->
  missingCardCounts (finalTotals r) = [] /\ buylist r = None.
Proof.
  intros Hall. unfold render.
  destruct (groupLines isCollection parsedLines) as [g|] eqn:Hg;
    cbn [bind]; [|discriminate].
  pose proof (groupLines_buckets untracked isCollection parsedLines g Hall Hg)
    as Hb.
  destruct g as [[cs sections] lbs]. simpl in Hb.
  destruct (renderSections _ _ _ lbs sections _) as [rs|] eqn:R;
    simpl; [|discriminate].
  apply (renderSections_untracked lbs sections Hb) in R. simpl in R.
  destruct isCollection, workspace as [w|]; simpl;
    try destruct (syncHref w parsedLines cardDataByCardId); simpl;
    try discriminate; intros [= <-]; simpl; rewrite R; split; reflexivity.
Qed.

(** ** C4 *)





End WithCatalog.

(** ** The sync link and entries that hold [undefined] *)

Lemma syncCards_undefined (parsedLines : list Line) (catalog : Catalog) :
  (exists cardId, In (cardId, None) catalog) ->
  syncCards parsedLines catalog = Thrown TypeError.
Proof.
  intros [cardId Hin].
  induction catalog as [|[k [d|]] rest IH]; simpl.
  - contradiction.
  - destruct Hin as [Hin|Hin]; [discriminate|].
    now rewrite (IH Hin).
  - reflexivity.
Qed.

(** In collection mode with a workspace, [render] raises as soon as the
    catalog holds an [undefined] entry, the entry that [renderCollection]
    stores for a collector number it did not find. *)
Lemma render_undefined_entry_raises (catalog : Catalog)
    (settings : DecklistSettings) (w : Workspace) (parsedLines : list Line) :
  (exists cardId, In (cardId, None) catalog) ->
  render nameToId UNKNOWN_CARD catalog settings (Some w) parsedLines true
  = Thrown TypeError.
Proof.
  intros Hin. unfold render.
  destruct (groupLines true parsedLines) as [[[cs sections] lbs]|[]];
    cbn [bind]; [|reflexivity].
  destruct (renderSections _ _ _ lbs sections _) as [rs|[]]; simpl;
    [|reflexivity].
  unfold syncHref. now rewrite (syncCards_undefined parsedLines catalog Hin).
Qed.

(** ** The catalogs that the source builds are keyed by card id *)

Lemma catalog_wf_put (catalog : Catalog) (card : CardData) (n : str) :
  name card = Some n ->
  catalog_wf nameToId catalog ->
  catalog_wf nameToId (put (nameToId (Some n)) (Some card) catalog).
Proof.
  intros Hn Hwf cardId d. unfold lookupCard.
  destruct (list_eq_dec N.eq_dec cardId (nameToId (Some n))) as [->|Hne].
  - rewrite get_put_same. intros [= <-]. unfold nameOrEmpty. now rewrite Hn.
  - rewrite get_put_other by assumption. apply Hwf.
Qed.

Lemma collectCardData_wf (batches : list (list CardData)) :
  catalog_wf nameToId (collectCardData nameToId batches).
Proof.
  unfold collectCardData.
  assert (G : forall cards catalog,
             catalog_wf nameToId catalog ->
             catalog_wf nameToId
               (fold_left
                  (fun cardDataByCardId card =>
                     if truthy_opt (name card)
                     then put (nameToId (name card)) (Some card)
                            cardDataByCardId
                     else cardDataByCardId) cards catalog)).
  { induction cards as [|card rest IH]; intros catalog Hwf; simpl.
    - exact Hwf.
    - apply IH. destruct (name card) as [n|] eqn:Hn; simpl; [|exact Hwf].
      destruct (truthy n); [|exact Hwf].
      now apply catalog_wf_put. }
  apply G. intros cardId d. discriminate.
Qed.

Lemma collectCardDataBySet_named
    (answers : list (str * list (option CardData))) :
  named (collectCardDataBySet answers).
Proof.
  unfold collectCardDataBySet.
  assert (Inner : forall cards byNumber,
             (forall num d, get num byNumber = Some d -> name d <> None) ->
             forall num d,
               get num
                 (fold_left
                    (fun byNumber card =>
                       match card with
                       | Some c =>
                           if truthy_opt (name c)
                           then put (collector_number c) c byNumber
                           else byNumber
                       | None => byNumber
                       end) cards byNumber) = Some d ->
               name d <> None).
  { induction cards as [|card rest IH]; intros byNumber Hb; simpl.
    - exact Hb.
    - apply IH. destruct card as [c|]; [|exact Hb].
      destruct (name c) as [n|] eqn:Hn; simpl; [|exact Hb].
      destruct (truthy n); [|exact Hb].
      intros num d.
      destruct (list_eq_dec N.eq_dec num (collector_number c)) as [->|Hne].
      + rewrite get_put_same. intros [= <-]. congruence.
      + rewrite get_put_other by assumption. apply Hb. }
  assert (Outer : forall ans bySet, named bySet ->
             named
               (fold_left
                  (fun bySet answer =>
                     put (fst answer)
                       (fold_left
                          (fun byNumber card =>
                             match card with
                             | Some c =>
                                 if truthy_opt (name c)
                                 then put (collector_number c) c byNumber
                                 else byNumber
                             | None => byNumber
                             end) (snd answer) []) bySet) ans bySet)).
  { induction ans as [|[setName cards] rest IH]; intros bySet Hn; simpl.
    - exact Hn.
    - apply IH. intros setCode bySetCode num d.
      destruct (list_eq_dec N.eq_dec setCode setName) as [->|Hne].
      + rewrite get_put_same. intros [= <-].
        apply Inner. intros num' d'. discriminate.
      + rewrite get_put_other by assumption. apply Hn. }
  apply Outer. intros setCode bySetCode num d. discriminate.
Qed.

Lemma resolveLines_wf (cardCounts : CardCounts)
    (fetched : obj (obj CardData)) (parsedLines : list Line) :
  named fetched ->
  forall catalog r,
    catalog_wf nameToId catalog ->
    resolveLines nameToId cardCounts fetched catalog parsedLines = Returned r ->
    catalog_wf nameToId (snd r).
Proof.
  intros Hnamed.
  induction parsedLines as [|line rest IH]; intros catalog r Hwf; simpl.
  - now intros [= <-].
  - destruct (resolveLine nameToId cardCounts fetched catalog line)
      as [[line' catalog']|] eqn:E; simpl; [|discriminate].
    destruct (resolveLines nameToId cardCounts fetched catalog' rest)
      as [[rest' catalog'']|] eqn:E'; simpl; [|discriminate].
    intros [= <-]. simpl.
    apply (IH catalog' (rest', catalog'')); [|exact E'].
    unfold resolveLine in E.
    destruct (cardNumber line) as [num|]; [|now inversion E; subst].
    destruct (cardSetCode line) as [setCode|]; [|now inversion E; subst].
    destruct (isCard line && truthy num && truthy setCode)%bool;
      [|now inversion E; subst].
    destruct (get setCode fetched) as [bySetCode|] eqn:G; [|discriminate].
    inversion E; subst. clear E.
    destruct (get num bySetCode) as [d|] eqn:Gd.
    + destruct (name d) as [n|] eqn:Hn.
      * now apply catalog_wf_put.
      * exfalso. eapply Hnamed; eauto.
    + intros cardId d. unfold lookupCard.
      destruct (list_eq_dec N.eq_dec cardId
                  (nameToId (Some (placeholderName setCode num))))
        as [->|Hne].
      * rewrite get_put_same. discriminate.
      * rewrite get_put_other by assumption. apply Hwf.
Qed.


(** ** C3 *)

(** C3: with the empty ledger, no record of [parseLines] holds an owned
    count, in collection mode the resolution of collector numbers gives
    none either, and when [renderDecklist] or [renderCollection] returns,
    the global missing-count map is empty and no buylist was built. *)
Theorem empty_ledger_tracks_nothing (rawLines : list str) (source : str)
    (settings : DecklistSettings) (workspace : option Workspace)
    (cardDataByCardId : Catalog) (fetched : obj (obj CardData)) :
  Forall untracked (parseLines nameToId rawLines [])
  /\ (forall r,
        resolveLines nameToId [] fetched [] (parseLines nameToId rawLines [])
        = Returned r ->
        Forall untracked (fst r))
  /\ (forall r,
        renderDecklist nameToId UNKNOWN_CARD source [] settings workspace
          cardDataByCardId = Returned r ->
        missingCardCounts (finalTotals r) = [] /\ buylist r = None)
  /\ (forall r,
        renderCollection nameToId UNKNOWN_CARD source [] settings workspace
          fetched = Returned r ->
        missingCardCounts (finalTotals r) = [] /\ buylist r = None).
Proof.
  assert (P : forall l, Forall untracked (parseLines nameToId l []))
    by (intros l; now apply parseFrom_untracked).
  split; [apply P|]. split; [|split].
  - intros r. now apply resolveLines_untracked.
  - intros r. unfold renderDecklist. apply render_untracked, P.
  - intros r. unfold renderCollection.
    destruct (buildDistinctCardNumbersBySetList _) as [numbers|];
      cbn [bind]; [|discriminate].
    destruct (resolveLines nameToId [] fetched [] _) as [rs|] eqn:R;
      simpl; [|discriminate].
    apply render_untracked.
    apply (resolveLines_untracked [] fetched _ eq_refl (P _) [] rs R).
Qed.

End RenderFacts.

(* ================================================================== *)
(** * The model on concrete lists *)
(* ================================================================== *)

(** The record of "3 Shock # great removal" is not the one that C7
    describes: its name is not "Shock". *)
Lemma parse_shock_name_not_trimmed :
  ~ (exists l,
       parseLines nameToId_spec [lit "3 Shock # great removal"] [] = [l]
       /\ lineType l = card
       /\ cardCount l = Some 3
       /\ cardName l = Some (lit "Shock")
       /\ comments l = Some [lit " great removal"]
       /\ errors l = Some []).
Proof.
  intros [l (E & _ & _ & N & _)].
  vm_compute in E. injection E as <-. vm_compute in N. discriminate.
Qed.

(** C5 at the line "4 Lightning Bolt (M10) 133": it is not blank, not a
    heading and not a comment, it is more than an integer, and the parser
    reads it as a collector number, the whole line being the number. *)
Theorem parse_set_code_line_as_number :
  parseLines nameToId_spec [lit "4 Lightning Bolt (M10) 133"] []
  = [mkLine card (Some 1) (Some None) None
       (Some (lit "4 Lightning Bolt (M10) 133")) (Some []) None None
       (Some (lit "4 Lightning Bolt (M10) 133"))]
  /\ forallb is_digit (lit "4 Lightning Bolt (M10) 133") = false.
Proof. split; vm_compute; reflexivity. Qed.

(** C6 at the line "[Deck]": its first character is neither a digit nor the
    comment delimiter, and the parser reads it as an invalid line, not as a
    section header. *)
Theorem parse_bracket_line_as_error :
  parseLines nameToId_spec [lit "[Deck]"] []
  = [mkLine error None None None None None None
       (Some [lit "invalid line: [Deck]"]) None]
  /\ (is_digit (chr "[") || is_char COMMENT_DELIMITER (chr "["))%bool = false.
Proof. split; vm_compute; reflexivity. Qed.




(** Scenario A of the spec, "4 Lightning Bolt" with the empty ledger, is
    drawn without a missing count and without a buylist. *)
Lemma empty_ledger_tracks_nothing_witness :
  match renderDecklist nameToId_spec UNKNOWN_CARD_spec
          (lit "4 Lightning Bolt") [] settings0 None [] with
  | Returned r =>
      map totalCount (sectionViews r) = [4]
      /\ missingCardCounts (finalTotals r) = []
      /\ buylist r = None
  | Thrown _ => False
  end.
Proof.
  destruct (renderDecklist nameToId_spec UNKNOWN_CARD_spec
              (lit "4 Lightning Bolt") [] settings0 None []) as [r|e] eqn:E.
  - split.
    + vm_compute in E. injection E as <-. reflexivity.
    + exact (proj1 (proj2 (proj2
               (empty_ledger_tracks_nothing nameToId_spec UNKNOWN_CARD_spec
                  [] (lit "4 Lightning Bolt") settings0 None [] []))) r E).
  - vm_compute in E. discriminate E.
Defined.



(** ** Collection mode *)

(** The fetched data has the set but not the number: the line takes the
    placeholder name and finds no price. *)
Lemma collection_miss_placeholder :
  resolveLines nameToId_spec [] [(lit "war", [])] []
    (parseLines nameToId_spec (split 10%N warList) [])
  = Returned
      ([mkLine comment None None None None None (Some [lit "# set=war"])
          None None;
        mkLine card (Some 1) (Some None)
          (Some (lit "Card not found (war/5)")) (Some (lit "5"))
          (Some (lit "war")) None None (Some (lit "5"))],
       [(lit "card not found (war/5)", None)])
  /\ getCardPrice nameToId_spec (lit "Card not found (war/5)")
       [(lit "card not found (war/5)", None)] settings0 = None.
Proof. split; vm_compute; reflexivity. Qed.

(** Without a workspace the list is drawn, and the line counts for one. *)
Lemma collection_miss_without_workspace :
  match renderCollection nameToId_spec UNKNOWN_CARD_spec warList []
          settings0 None [(lit "war", [])] with
  | Returned r =>
      map heading (sectionViews r) = [lit "Collection: "]
      /\ map totalCount (sectionViews r) = [1]
  | Thrown _ => False
  end.
Proof. vm_compute. split; reflexivity. Qed.

(** C9 at the list "# set=war", "5": with a workspace, as [renderCollection]
    demands one, a collector number that the fetched data lacks makes
    [render] raise a [TypeError] when it builds the sync link; and when the
    fetched data lacks the set code altogether, which is what a failed
    fetch leaves, the resolution itself raises. *)
Theorem collection_miss_raises :
  renderCollection nameToId_spec UNKNOWN_CARD_spec warList [] settings0
    (Some notes) [(lit "war", [])] = Thrown TypeError
  /\ renderCollection nameToId_spec UNKNOWN_CARD_spec warList [] settings0
       None [] = Thrown TypeError.
Proof. split; vm_compute; reflexivity. Qed.

(* ================================================================== *)
(** * The query builders *)
(* ================================================================== *)

Lemma existsb_str_eqb (x : str) (l : list str) :
  existsb (str_eqb x) l = true <-> In x l.
Proof.
  rewrite existsb_exists. split.
  - intros (y & Hin & E). apply str_eqb_eq in E. now subst.
  - intros Hin. exists x. split; [assumption|apply str_eqb_refl].
Qed.

(** [distinct], from any set of strings already seen. *)
Lemma distinct_from (xs : list str) :
  forall seen,
    let out :=
      fold_left
        (fun seen x => if existsb (str_eqb x) seen then seen else seen ++ [x])
        xs seen in
    (NoDup seen -> NoDup out)
    /\ (forall x, In x out <-> In x seen \/ In x xs)
    /\ exists extra, out = seen ++ extra.
Proof.
  induction xs as [|x xs IH]; intros seen; cbn [fold_left].
  - split; [auto|]. split.
    + intros y. simpl. tauto.
    + exists []. now rewrite app_nil_r.
  - destruct (existsb (str_eqb x) seen) eqn:E.
    + destruct (IH seen) as (N & M & P). cbv zeta in N, M, P.
      apply existsb_str_eqb in E.
      split; [exact N|]. split; [|exact P].
      intros y. rewrite M. simpl. split; [tauto|].
      intros [Hs|[->|Hx]]; auto.
    + destruct (IH (seen ++ [x])) as (N & M & (extra & P)).
      cbv zeta in N, M, P.
      assert (Hnot : ~ In x seen).
      { intros Hin. apply existsb_str_eqb in Hin. congruence. }
      split; [|split].
      * intros Hnd. apply N.
        apply NoDup_app; [assumption|repeat constructor; auto|].
        -- intros y Hy [<-|[]]. contradiction.
      * intros y. rewrite M, in_app_iff. simpl. tauto.
      * exists (x :: extra). rewrite P, <- app_assoc. reflexivity.
Qed.

(** X2: [buildDistinctCardNamesList] lists every non-empty card name of the
    lines once, and no other string; a list with more lines at its end
    gives the same names first, so the names come in the order of their
    first lines. *)
Theorem distinct_card_names (lines more : list Line) :
  NoDup (buildDistinctCardNamesList lines)
  /\ (forall n,
        In n (buildDistinctCardNamesList lines)
        <-> n <> [] /\ exists line, In line lines /\ cardName line = Some n)
  /\ exists extra,
       buildDistinctCardNamesList (lines ++ more)
       = buildDistinctCardNamesList lines ++ extra.
Proof.
  unfold buildDistinctCardNamesList, distinct.
  split; [|split].
  - apply (distinct_from _ []). constructor.
  - intros n.
    destruct (distinct_from (filter truthy (map cardNameOrEmpty lines)) [])
      as (_ & M & _).
    cbv zeta in M. rewrite M. simpl.
    rewrite filter_In, in_map_iff. unfold cardNameOrEmpty. split.
    + intros [[]|((line & E & Hin) & T)].
      split; [intros ->; discriminate|].
      exists line. split; [assumption|].
      destruct (cardName line); [congruence|subst; discriminate].
    + intros (Hne & line & Hin & E). right. split.
      * exists line. now rewrite E.
      * destruct n; [congruence|reflexivity].
  - rewrite map_app, filter_app, fold_left_app.
    destruct (distinct_from (filter truthy (map cardNameOrEmpty more))
                (fold_left
                   (fun seen x =>
                      if existsb (str_eqb x) seen then seen else seen ++ [x])
                   (filter truthy (map cardNameOrEmpty lines)) []))
      as (_ & _ & P).
    exact P.
Qed.

Lemma get_not_None_keys {V} (k : str) (o : obj V) :
  get k o <> None <-> In k (keys o).
Proof.
  unfold keys. induction o as [|[k' v] o IH]; simpl.
  - tauto.
  - destruct (str_eqb k k') eqn:E.
    + apply str_eqb_eq in E. subst. split; [auto|discriminate].
    + apply str_eqb_neq in E. rewrite IH. split; [auto|].
      intros [->|H]; [congruence|assumption].
Qed.

Lemma truthy_iff (x : str) : truthy x = true <-> x <> [].
Proof. destruct x; simpl; split; congruence. Qed.

Local Abbreviation numbered acc lines out :=
  (match out with
   | Thrown _ =>
       exists line num setCode,
         In line lines /\ cardNumber line = Some num
         /\ cardSetCode line = Some setCode
         /\ num <> [] /\ setCode <> [] /\ inherited setCode = true
   | Returned numbers =>
       (forall line num setCode,
           In line lines -> cardNumber line = Some num ->
           cardSetCode line = Some setCode ->
           num <> [] -> setCode <> [] -> inherited setCode = false)
       /\ forall setCode,
            (match get setCode numbers with Some ns => ns | None => [] end
             = match get setCode acc with Some ns => ns | None => [] end
               ++ numbersOfSet setCode lines)
            /\ (get setCode numbers = None
                <-> get setCode acc = None
                    /\ numbersOfSet setCode lines = [])
   end).

(** [buildDistinctCardNumbersBySetList], from any object that holds no
    member of [Object.prototype] as an own property. *)
Lemma addCardNumber_foldM (lines : list Line) :
  forall acc,
    (forall k, inherited k = true -> get k acc = None) ->
    numbered acc lines (foldM addCardNumber lines acc).
Proof.
  induction lines as [|line rest IH]; intros acc Hinv; cbn [foldM].
  - split; [intros line num setCode []|].
    intros setCode. simpl. rewrite app_nil_r. tauto.
  - assert (Skip : (forall num setCode,
                       cardNumber line = Some num ->
                       cardSetCode line = Some setCode ->
                       num <> [] -> setCode <> [] -> False) ->
                   numbered acc (line :: rest)
                     (foldM addCardNumber rest acc)).
    { intros Hno. specialize (IH acc Hinv).
      assert (N : forall setCode,
                 numbersOfSet setCode (line :: rest)
                 = numbersOfSet setCode rest).
      { intros setCode. unfold numbersOfSet. cbn [flat_map].
        destruct (cardNumber line) as [num|] eqn:En; [|reflexivity].
        destruct (cardSetCode line) as [code|] eqn:Ec; [|reflexivity].
        destruct (truthy num) eqn:Tn; [|reflexivity].
        destruct (truthy code) eqn:Tc; [|reflexivity].
        exfalso. apply (Hno num code); auto; now apply truthy_iff. }
      destruct (foldM addCardNumber rest acc) as [out|e].
      - destruct IH as [A B]. split.
        + intros l num setCode [<-|Hin] En Ec Hn Hc.
          * exfalso. eapply Hno; eauto.
          * eapply A; eauto.
        + intros setCode. rewrite N. apply B.
      - destruct IH as (l & num & setCode & Hin & R).
        exists l, num, setCode. split; [now right|exact R]. }
    unfold addCardNumber at 1.
    destruct (cardNumber line) as [num|] eqn:En;
      [|cbn [bind]; apply Skip; congruence].
    destruct (cardSetCode line) as [code|] eqn:Ec;
      [|cbn [bind]; apply Skip; congruence].
    destruct (truthy num) eqn:Tn;
      [|cbn [andb bind]; apply Skip; intros n c [= <-] _ Hn _;
        apply truthy_iff in Hn; congruence].
    destruct (truthy code) eqn:Tc;
      [|cbn [andb bind]; apply Skip; intros n c _ [= <-] _ Hc;
        apply truthy_iff in Hc; congruence].
    cbn [andb]. clear Skip.
    apply truthy_iff in Tn. apply truthy_iff in Tc.
    assert (Go : inherited code = false ->
                 forall b0,
                   b0 = match get code acc with
                        | Some ns => ns
                        | None => []
                        end ->
                   numbered acc (line :: rest)
                     (foldM addCardNumber rest
                        (put code (b0 ++ [num]) acc))).
    { intros I b0 Hb0.
      assert (Hinv' : forall k,
                 inherited k = true ->
                 get k (put code (b0 ++ [num]) acc) = None).
      { intros k Hk. rewrite get_put_other; [now apply Hinv|].
        intros ->. congruence. }
      specialize (IH _ Hinv').
      destruct (foldM addCardNumber rest _) as [out|e].
      - destruct IH as [A B]. split.
        + intros l n c [<-|Hin] En' Ec' Hn Hc.
          * congruence.
          * eapply A; eauto.
        + intros setCode. destruct (B setCode) as [B1 B2].
          rewrite B1, B2. unfold numbersOfSet. cbn [flat_map].
          fold (numbersOfSet setCode rest). rewrite En, Ec.
          replace (truthy num) with true
            by (symmetry; now apply truthy_iff).
          replace (truthy code) with true
            by (symmetry; now apply truthy_iff).
          cbn [andb].
          destruct (str_eqb code setCode) eqn:E.
          * apply str_eqb_eq in E. subst setCode. rewrite get_put_same.
            rewrite Hb0, <- app_assoc. split; [reflexivity|].
            split; [intros [D _]; discriminate|intros [_ D]; discriminate].
          * apply str_eqb_neq in E.
            rewrite get_put_other by congruence. simpl. tauto.
      - destruct IH as (l & n & c & Hin & R).
        exists l, n, c. split; [now right|exact R]. }
    destruct (get code acc) as [ns|] eqn:G.
    + cbn [bind]. apply Go; [|reflexivity].
      destruct (inherited code) eqn:I; [|reflexivity].
      rewrite (Hinv _ I) in G. discriminate.
    + destruct (inherited code) eqn:I; cbn [bind].
      * exists line, num, code. split; [now left|auto 10].
      * apply (Go eq_refl [] eq_refl).
Qed.

Lemma buildDistinctCardNumbersBySetList_spec (lines : list Line) :
  match buildDistinctCardNumbersBySetList lines with
  | Thrown _ =>
      exists line num setCode,
        In line lines /\ cardNumber line = Some num
        /\ cardSetCode line = Some setCode
        /\ num <> [] /\ setCode <> [] /\ inherited setCode = true
  | Returned numbers =>
      (forall line num setCode,
          In line lines -> cardNumber line = Some num ->
          cardSetCode line = Some setCode ->
          num <> [] -> setCode <> [] -> inherited setCode = false)
      /\ forall setCode,
           get setCode numbers
           = match numbersOfSet setCode lines with
             | [] => None
             | num :: rest => Some (num :: rest)
             end
  end.
Proof.
  unfold buildDistinctCardNumbersBySetList.
  pose proof (addCardNumber_foldM lines [] (fun k _ => eq_refl)) as P.
  destruct (foldM addCardNumber lines []) as [numbers|e]; [|exact P].
  destruct P as [A B]. split; [exact A|].
  intros setCode. destruct (B setCode) as [B1 B2]. simpl in B1, B2.
  destruct (numbersOfSet setCode lines) as [|num rest] eqn:N.
  - apply B2. auto.
  - destruct (get setCode numbers) as [ns|] eqn:G.
    + now rewrite B1.
    + destruct (proj1 B2 eq_refl) as [_ D]. discriminate.
Qed.

(** X3: [buildDistinctCardNumbersBySetList] raises a [TypeError] exactly
    when some line has a number and a set code, both not empty, and the set
    code names a member of [Object.prototype]. When it returns, it has an
    entry for a set code exactly when some line gives a number for it, and
    the entry is the list of the numbers that the lines give for it, in the
    order of the lines and with repetitions; a line with an empty set code
    or an empty number gives nothing. *)
Theorem card_numbers_by_set (lines : list Line) :
  (buildDistinctCardNumbersBySetList lines = Thrown TypeError
   <-> exists line num setCode,
         In line lines /\ cardNumber line = Some num
         /\ cardSetCode line = Some setCode
         /\ num <> [] /\ setCode <> [] /\ inherited setCode = true)
  /\ (forall numbers,
         buildDistinctCardNumbersBySetList lines = Returned numbers ->
         forall setCode,
           get setCode numbers
           = match numbersOfSet setCode lines with
             | [] => None
             | num :: rest => Some (num :: rest)
             end).
Proof.
  pose proof (buildDistinctCardNumbersBySetList_spec lines) as P.
  destruct (buildDistinctCardNumbersBySetList lines) as [numbers|[]].
  - destruct P as [A B]. split.
    + split; [discriminate|].
      intros (line & num & setCode & Hin & En & Ec & Hn & Hc & I).
      rewrite (A line num setCode Hin En Ec Hn Hc) in I. discriminate.
    + intros numbers' [= <-]. exact B.
  - split; [split; [intros _; exact P|reflexivity]|discriminate].
Qed.

(* ================================================================== *)
(** * The fetchers *)
(* ================================================================== *)

Section FetcherFacts.

Variable nameToId : option str -> str.

Lemma collectCardDataBySet_keys
    (answers : list (str * list (option CardData))) (setCode : str) :
  get setCode (collectCardDataBySet answers) <> None
  <-> In setCode (map fst answers).
Proof.
  unfold collectCardDataBySet.
  assert (G : forall (bucket : str * list (option CardData) -> obj CardData)
                     acc,
             get setCode
               (fold_left (fun bySet answer =>
                             put (fst answer) (bucket answer) bySet)
                  answers acc) <> None
             <-> get setCode acc <> None \/ In setCode (map fst answers)).
  { intros bucket.
    induction answers as [|[s cards] rest IH]; intros acc; simpl.
    - tauto.
    - rewrite IH. simpl.
      destruct (list_eq_dec N.eq_dec setCode s) as [->|Hne].
      + rewrite get_put_same. split; [auto|]. intros _. left. discriminate.
      + rewrite get_put_other by assumption. split.
        * intros [Hg|Hin]; auto.
        * intros [Hg|[E|Hin]]; auto; congruence. }
  rewrite G. simpl. tauto.
Qed.

(** The lines whose collector number [renderCollection] looks up. *)
Lemma resolveLines_returns (cardCounts : CardCounts)
    (fetched : obj (obj CardData)) (parsedLines : list Line) :
  (forall line num setCode,
      In line parsedLines ->
      cardNumber line = Some num -> cardSetCode line = Some setCode ->
      truthy num = true -> truthy setCode = true ->
      get setCode fetched <> None) ->
  forall catalog,
    exists r,
      resolveLines nameToId cardCounts fetched catalog parsedLines
      = Returned r.
Proof.
  induction parsedLines as [|line rest IH]; intros Hsets catalog; simpl.
  - eexists. reflexivity.
  - assert (Hline : exists r1,
               resolveLine nameToId cardCounts fetched catalog line
               = Returned r1).
    { unfold resolveLine.
      destruct (cardNumber line) as [num|] eqn:En; [|eexists; reflexivity].
      destruct (cardSetCode line) as [setCode|] eqn:Es;
        [|eexists; reflexivity].
      destruct (isCard line && truthy num && truthy setCode)%bool eqn:C;
        [|eexists; reflexivity].
      apply andb_true_iff in C. destruct C as [C Ts].
      apply andb_true_iff in C. destruct C as [_ Tn].
      destruct (get setCode fetched) eqn:G; [eexists; reflexivity|].
      exfalso. eapply (Hsets line num setCode); eauto. now left. }
    destruct Hline as [r1 ->]. simpl.
    destruct (IH (fun l n s Hin => Hsets l n s (or_intror Hin)) (snd r1))
      as [rs ->].
    simpl. eexists. reflexivity.
Qed.

(** X4: when [buildDistinctCardNumbersBySetList] returns the numbers of a
    list of lines, the data that [fetchCardDataByIDFromScryfall] builds
    for these numbers has an entry for every set code that
    [renderCollection] looks up in it, also for a set whose request failed:
    whatever the requests answer, the resolution of the collector numbers
    of these lines raises no exception. *)
Theorem fetched_sets_cover_lookups
    (getMultipleCardDataByID :
       str -> list str -> result (list (option CardData)))
    (cardCounts : CardCounts) (catalog : Catalog) (parsedLines : list Line)
    (numbers : obj (list str)) :
  buildDistinctCardNumbersBySetList parsedLines = Returned numbers ->
  exists r,
    resolveLines nameToId cardCounts
      (fetchCardDataByIDFromScryfall getMultipleCardDataByID numbers)
      catalog parsedLines
    = Returned r.
Proof.
  intros Hb. apply resolveLines_returns.
  intros line num setCode Hin En Es Tn Ts.
  unfold fetchCardDataByIDFromScryfall.
  apply collectCardDataBySet_keys. rewrite map_map. simpl.
  change (map (fun x : str * list str => fst x) numbers)
    with (keys numbers).
  apply get_not_None_keys.
  pose proof (buildDistinctCardNumbersBySetList_spec parsedLines) as P.
  rewrite Hb in P. destruct P as [_ B]. rewrite (B setCode).
  assert (Hn : In num (numbersOfSet setCode parsedLines)).
  { unfold numbersOfSet. apply in_flat_map. exists line.
    split; [assumption|]. rewrite En, Es, Tn, Ts, str_eqb_refl.
    now left. }
  destruct (numbersOfSet setCode parsedLines); [contradiction|discriminate].
Qed.

(** X5: the catalog that [fetchCardDataFromScryfall] returns is keyed by
    card id: whatever the requests answer, a card found under an id has a
    name, and the id is the id of that name. *)
Theorem fetched_catalog_keyed_by_id (MAX_SCRYFALL_BATCH_SIZE : nat)
    (getMultipleCardData : list str -> result (list CardData))
    (distinctCardNames : list str) (catalog : Catalog) :
  fetchCardDataFromScryfall nameToId MAX_SCRYFALL_BATCH_SIZE
    getMultipleCardData distinctCardNames = Returned catalog ->
  forall cardId d,
    lookupCard catalog cardId = Some d ->
    exists n, name d = Some n /\ n <> [] /\ nameToId (Some n) = cardId.
Proof.
  unfold fetchCardDataFromScryfall.
  destruct (requestAll _ _) as [answers|]; simpl; [|discriminate].
  intros [= <-]. unfold collectCardData.
  assert (G : forall cards acc,
             (forall cardId d,
                 lookupCard acc cardId = Some d ->
                 exists n, name d = Some n /\ n <> []
                           /\ nameToId (Some n) = cardId) ->
             forall cardId d,
               lookupCard
                 (fold_left
                    (fun cardDataByCardId card =>
                       if truthy_opt (name card)
                       then put (nameToId (name card)) (Some card)
                              cardDataByCardId
                       else cardDataByCardId) cards acc) cardId = Some d ->
               exists n, name d = Some n /\ n <> []
                         /\ nameToId (Some n) = cardId).
  { induction cards as [|card rest IH]; intros acc Hacc; simpl.
    - exact Hacc.
    - apply IH. destruct (name card) as [n|] eqn:Hn; simpl; [|exact Hacc].
      destruct (truthy n) eqn:T; [|exact Hacc].
      intros cardId d. unfold lookupCard.
      destruct (list_eq_dec N.eq_dec cardId (nameToId (Some n)))
        as [->|Hne].
      + rewrite get_put_same. intros [= <-]. exists n.
        repeat split; [assumption|]. intros ->. discriminate.
      + rewrite get_put_other by assumption. apply Hacc. }
  apply G. intros cardId d. discriminate.
Qed.

(** What one iteration of the resolution does to the catalog. *)
Lemma resolveLine_catalog (cardCounts : CardCounts)
    (fetched : obj (obj CardData)) (catalog : Catalog) (line : Line)
    (r : Line * Catalog) :
  named fetched ->
  resolveLine nameToId cardCounts fetched catalog line = Returned r ->
  (snd r = catalog /\ forall k, ~ missedBy nameToId fetched k line)
  \/ (exists d n,
         name d = Some n
         /\ snd r = put (nameToId (Some n)) (Some d) catalog
         /\ forall k, ~ missedBy nameToId fetched k line)
  \/ (exists k,
         missedBy nameToId fetched k line
         /\ snd r = put k None catalog
         /\ forall k', missedBy nameToId fetched k' line -> k' = k).
Proof.
  intros Hnamed. unfold resolveLine.
  destruct (cardNumber line) as [num|] eqn:En;
    [|intros [= <-]; left; split; [reflexivity|];
      intros k (_ & n & c & b & E & _); congruence].
  destruct (cardSetCode line) as [setCode|] eqn:Ec;
    [|intros [= <-]; left; split; [reflexivity|];
      intros k (_ & n & c & b & _ & E & _); congruence].
  destruct (isCard line && truthy num && truthy setCode)%bool eqn:C.
  - apply andb_true_iff in C. destruct C as [C Tc].
    apply andb_true_iff in C. destruct C as [Hc Tn].
    apply truthy_iff in Tn. apply truthy_iff in Tc.
    destruct (get setCode fetched) as [bySetCode|] eqn:G; [|discriminate].
    intros [= <-]. cbn [snd]. right.
    destruct (get num bySetCode) as [d|] eqn:Gd.
    + left. destruct (name d) as [n|] eqn:Hn;
        [|exfalso; eapply Hnamed; eauto].
      exists d, n. split; [assumption|]. split; [reflexivity|].
      intros k (_ & n' & c' & b' & E1 & E2 & _ & _ & G' & Gd' & _).
      congruence.
    + right. exists (nameToId (Some (placeholderName setCode num))).
      split; [|split; [reflexivity|]].
      * split; [assumption|]. exists num, setCode, bySetCode. auto 10.
      * intros k' (_ & n' & c' & b' & E1 & E2 & _ & _ & _ & _ & ->).
        congruence.
  - intros [= <-]. left. split; [reflexivity|].
    intros k (Hc & n & c & b & E1 & E2 & Hn & Hcode & _).
    assert (n = num) by congruence. assert (c = setCode) by congruence.
    subst n c. apply truthy_iff in Hn. apply truthy_iff in Hcode.
    rewrite Hc, Hn, Hcode in C. discriminate.
Qed.

(** The catalog that the resolution loop leaves, against the one it
    started from. *)
Lemma resolveLines_catalog (cardCounts : CardCounts)
    (fetched : obj (obj CardData)) :
  named fetched ->
  forall parsedLines catalog r,
    resolveLines nameToId cardCounts fetched catalog parsedLines = Returned r
    ->
    (forall k d,
        get k (snd r) = Some (Some d) ->
        get k catalog = Some (Some d)
        \/ exists n, name d = Some n /\ nameToId (Some n) = k)
    /\ (forall k,
           get k (snd r) = Some None ->
           get k catalog = Some None
           \/ exists line,
                In line parsedLines /\ missedBy nameToId fetched k line)
    /\ (forall k, In k (keys catalog) -> In k (keys (snd r)))
    /\ (forall k line,
           In line parsedLines -> missedBy nameToId fetched k line ->
           In k (keys (snd r))).
Proof.
  intros Hnamed.
  induction parsedLines as [|line rest IH]; intros catalog r;
    cbn [resolveLines].
  - intros [= <-]. cbn [snd]. repeat split; auto.
    intros k line [].
  - destruct (resolveLine nameToId cardCounts fetched catalog line)
      as [r1|] eqn:E; cbn [bind]; [|discriminate].
    destruct (resolveLines nameToId cardCounts fetched (snd r1) rest)
      as [rs|] eqn:E'; cbn [bind]; [|discriminate].
    intros [= <-]. cbn [snd].
    destruct (IH _ _ E') as (A & B & C & D). clear IH E'.
    apply (resolveLine_catalog _ _ _ _ _ Hnamed) in E.
    destruct E as [[E1 No]|[(d & n & Hn & E1 & No)|(k0 & M & E1 & Only)]];
      rewrite E1 in A, B, C.
    + repeat split.
      * exact A.
      * intros k Hk. destruct (B k Hk) as [O|(l & Hin & Hm)]; [auto|].
        right. exists l. split; [now right|assumption].
      * exact C.
      * intros k l [<-|Hin] Hm; [now apply No in Hm|eauto].
    + repeat split.
      * intros k d' Hk. destruct (A k d' Hk) as [O|N]; [|auto].
        destruct (list_eq_dec N.eq_dec k (nameToId (Some n))) as [->|Hne].
        -- rewrite get_put_same in O. injection O as <-. right. eauto.
        -- rewrite get_put_other in O by assumption. auto.
      * intros k Hk. destruct (B k Hk) as [O|(l & Hin & Hm)].
        -- destruct (list_eq_dec N.eq_dec k (nameToId (Some n)))
             as [->|Hne].
           ++ rewrite get_put_same in O. discriminate.
           ++ rewrite get_put_other in O by assumption. auto.
        -- right. exists l. split; [now right|assumption].
      * intros k Hk. apply C. apply keys_put. now right.
      * intros k l [<-|Hin] Hm; [now apply No in Hm|eauto].
    + repeat split.
      * intros k d' Hk. destruct (A k d' Hk) as [O|N]; [|auto].
        destruct (list_eq_dec N.eq_dec k k0) as [->|Hne].
        -- rewrite get_put_same in O. discriminate.
        -- rewrite get_put_other in O by assumption. auto.
      * intros k Hk. destruct (B k Hk) as [O|(l & Hin & Hm)].
        -- destruct (list_eq_dec N.eq_dec k k0) as [->|Hne].
           ++ right. exists line. split; [now left|assumption].
           ++ rewrite get_put_other in O by assumption. auto.
        -- right. exists l. split; [now right|assumption].
      * intros k Hk. apply C. apply keys_put. now right.
      * intros k l [<-|Hin] Hm; [|eauto].
        apply Only in Hm. subst k. apply C. apply keys_put. now left.
Qed.

(** X6: the catalog that [renderCollection] builds from the data that
    [fetchCardDataByIDFromScryfall] fetched for the numbers of the lines:
    whatever the requests answer, a card found under an id has a name and
    is there under the id of that name;
    an entry that holds no card is the entry of a card line whose
    collector number the data of its set does not hold, under the id of
    its placeholder name; and every such line has an entry under that
    id. *)
Theorem collection_catalog_keyed_by_id
    (getMultipleCardDataByID :
       str -> list str -> result (list (option CardData)))
    (distinctCardNumbersBySet : obj (list str)) (cardCounts : CardCounts)
    (parsedLines : list Line) (r : list Line * Catalog) :
  buildDistinctCardNumbersBySetList parsedLines
  = Returned distinctCardNumbersBySet ->
  resolveLines nameToId cardCounts
    (fetchCardDataByIDFromScryfall getMultipleCardDataByID
       distinctCardNumbersBySet)
    [] parsedLines
  = Returned r ->
  (forall cardId d,
      lookupCard (snd r) cardId = Some d ->
      exists n, name d = Some n /\ nameToId (Some n) = cardId)
  /\ (forall cardId,
         get cardId (snd r) = Some None ->
         exists line,
           In line parsedLines
           /\ missedBy nameToId
                (fetchCardDataByIDFromScryfall getMultipleCardDataByID
                   distinctCardNumbersBySet)
                cardId line)
  /\ (forall cardId line,
         In line parsedLines ->
         missedBy nameToId
           (fetchCardDataByIDFromScryfall getMultipleCardDataByID
              distinctCardNumbersBySet)
           cardId line ->
         In cardId (keys (snd r))).
Proof.
  intros _ Hr.
  assert (Hnamed : named
                     (fetchCardDataByIDFromScryfall getMultipleCardDataByID
                        distinctCardNumbersBySet))
    by apply collectCardDataBySet_named.
  destruct (resolveLines_catalog cardCounts _ Hnamed _ _ _ Hr)
    as (A & B & _ & D).
  split; [|split].
  - intros cardId d. unfold lookupCard.
    destruct (get cardId (snd r)) as [[d'|]|] eqn:G; try discriminate.
    intros [= <-]. destruct (A _ _ G) as [O|N]; [discriminate|exact N].
  - intros cardId G. destruct (B _ G) as [O|M]; [discriminate|exact M].
  - exact D.
Qed.

End FetcherFacts.

Lemma fetched_catalog_keyed_by_id_witness :
  fetchCardDataFromScryfall nameToId_spec 75 knowsShock
    [lit "Shock"; lit "Negate"]
  = Returned catalog0
  /\ exists n,
       name shock = Some n /\ n <> [] /\ nameToId_spec (Some n) = lit "shock".
Proof.
  split; [reflexivity|].
  apply (fetched_catalog_keyed_by_id nameToId_spec 75 knowsShock
           [lit "Shock"; lit "Negate"] catalog0);
    reflexivity.
Defined.

Lemma fetched_sets_cover_lookups_witness :
  buildDistinctCardNumbersBySetList
    (parseLines nameToId_spec m19List ledger0)
  = Returned [(lit "m19", [lit "156"; lit "7"])]
  /\ exists r,
       resolveLines nameToId_spec ledger0
         (fetchCardDataByIDFromScryfall m19Cards
            [(lit "m19", [lit "156"; lit "7"])])
         [] (parseLines nameToId_spec m19List ledger0)
       = Returned r.
Proof.
  split; [reflexivity|].
  apply (fetched_sets_cover_lookups nameToId_spec m19Cards ledger0 []
           (parseLines nameToId_spec m19List ledger0)
           [(lit "m19", [lit "156"; lit "7"])]).
  reflexivity.
Defined.

Lemma collection_catalog_keyed_by_id_witness :
  match resolveLines nameToId_spec ledger0
          (fetchCardDataByIDFromScryfall m19Cards
             [(lit "m19", [lit "156"; lit "7"])])
          [] (parseLines nameToId_spec m19List ledger0) with
  | Returned r =>
      keys (snd r) = [lit "shock"; lit "card not found (m19/7)"]
      /\ lookupCard (snd r) (lit "shock") = Some shock
      /\ exists n,
           name shock = Some n /\ nameToId_spec (Some n) = lit "shock"
  | Thrown _ => False
  end.
Proof.
  destruct (resolveLines nameToId_spec ledger0 _ []
              (parseLines nameToId_spec m19List ledger0))
    as [r|e] eqn:E.
  - assert (L : lookupCard (snd r) (lit "shock") = Some shock)
      by (vm_compute in E; injection E as <-; reflexivity).
    split; [vm_compute in E; injection E as <-; reflexivity|].
    split; [exact L|].
    assert (B : buildDistinctCardNumbersBySetList
                  (parseLines nameToId_spec m19List ledger0)
                = Returned [(lit "m19", [lit "156"; lit "7"])])
      by reflexivity.
    destruct (collection_catalog_keyed_by_id nameToId_spec m19Cards _
                ledger0 _ r B E) as (A & _ & _).
    exact (A (lit "shock") shock L).
  - vm_compute in E. discriminate E.
Defined.

(** ** The batches of [fetchCardDataFromScryfall] *)

Section BatchFacts.

Variable nameToId : option str -> str.
Variable MAX_SCRYFALL_BATCH_SIZE : nat.

Lemma push_at_last (init : list (list str)) (last : list str) (x : str) :
  push_at (List.length init) x (init ++ [last]) = init ++ [last ++ [x]].
Proof.
  induction init as [|a init IH]; simpl; [reflexivity|]. now rewrite IH.
Qed.

Lemma map_nth_seq (d : list str) (l pre : list (list str)) :
  map (fun i => nth i (pre ++ l) d) (seq (List.length pre) (List.length l))
  = l.
Proof.
  revert pre. induction l as [|a l IH]; intros pre; simpl; [reflexivity|].
  rewrite nth_middle. f_equal.
  specialize (IH (pre ++ [a])).
  rewrite <- app_assoc, length_app in IH. simpl in IH.
  rewrite Nat.add_1_r in IH. exact IH.
Qed.

Lemma batchStep_ok (ids : list str) (b : Batching) (cardName : str) :
  (0 < MAX_SCRYFALL_BATCH_SIZE)%nat ->
  batching_ok MAX_SCRYFALL_BATCH_SIZE ids b ->
  batching_ok MAX_SCRYFALL_BATCH_SIZE (ids ++ [nameToId (Some cardName)])
    (batchStep nameToId MAX_SCRYFALL_BATCH_SIZE b cardName).
Proof.
  intros Hmax (init & last & Ha & Hc & Hb & Hfull & Hlast & Hids).
  unfold batchStep. rewrite Ha, Hc, nth_middle.
  destruct (Nat.eqb_spec (List.length last) MAX_SCRYFALL_BATCH_SIZE)
    as [E|E]; cbn [arrays batches currentBatch].
  - exists (init ++ [last]), [nameToId (Some cardName)].
    rewrite Hb, (push_at_last (init ++ [last]) []).
    repeat split.
    + rewrite length_app. simpl. rewrite Nat.add_1_r, seq_S. reflexivity.
    + apply Forall_app. split; [assumption|]. now constructor.
    + simpl. lia.
    + rewrite concat_app. simpl. rewrite app_nil_r, Hids. reflexivity.
  - exists init, (last ++ [nameToId (Some cardName)]).
    rewrite Ha, Hc, push_at_last.
    repeat split; try assumption.
    + rewrite length_app. simpl. lia.
    + now rewrite app_assoc, Hids.
Qed.

Lemma batchStep_fold_ok (names : list str) :
  (0 < MAX_SCRYFALL_BATCH_SIZE)%nat ->
  forall ids b,
    batching_ok MAX_SCRYFALL_BATCH_SIZE ids b ->
    batching_ok MAX_SCRYFALL_BATCH_SIZE
      (ids ++ map (fun n => nameToId (Some n)) names)
      (fold_left (batchStep nameToId MAX_SCRYFALL_BATCH_SIZE) names b).
Proof.
  intros Hmax. induction names as [|n rest IH]; intros ids b Hok; simpl.
  - now rewrite app_nil_r.
  - replace (ids ++ nameToId (Some n) :: map _ rest)
      with ((ids ++ [nameToId (Some n)])
              ++ map (fun n => nameToId (Some n)) rest)
      by (now rewrite <- app_assoc).
    apply IH. now apply batchStep_ok.
Qed.

(** X7: with a positive batch size, the batches that
    [fetchCardDataFromScryfall] requests are the ids of the names cut into
    consecutive batches, every batch but the last one of exactly the batch
    size and the last one of at most that size, with the first batch
    requested twice, since [batches] holds it from the start and gets it
    again when it is full or when the loop ends; for no name at all, two
    empty batches are requested. *)
Theorem requested_batches_shape (distinctCardNames : list str) :
  (0 < MAX_SCRYFALL_BATCH_SIZE)%nat ->
  exists full last,
    requestedBatches nameToId MAX_SCRYFALL_BATCH_SIZE distinctCardNames
    = hd last full :: full ++ [last]
    /\ concat full ++ last
       = map (fun n => nameToId (Some n)) distinctCardNames
    /\ Forall (fun a => List.length a = MAX_SCRYFALL_BATCH_SIZE) full
    /\ (List.length last <= MAX_SCRYFALL_BATCH_SIZE)%nat.
Proof.
  intros Hmax. unfold requestedBatches.
  assert (H0 : batching_ok MAX_SCRYFALL_BATCH_SIZE [] (mkBatching [[]] [O] 0)).
  { exists [], []. repeat split; simpl; auto; lia. }
  destruct (batchStep_fold_ok distinctCardNames Hmax [] _ H0)
    as (init & last & Ha & Hc & Hb & Hfull & Hlast & Hids).
  exists init, last. cbv zeta.
  rewrite Ha, Hb, Hc. simpl in Hids.
  split; [|auto].
  cbn [app map]. f_equal.
  - destruct init; reflexivity.
  - rewrite <- seq_S.
    replace (S (List.length init)) with (List.length (init ++ [last]))
      by (rewrite length_app; simpl; lia).
    apply (map_nth_seq [] (init ++ [last]) []).
Qed.

End BatchFacts.

Lemma requested_batches_shape_witness :
  requestedBatches nameToId_spec 2 [lit "Shock"; lit "Negate"; lit "Opt"]
  = [[lit "shock"; lit "negate"]; [lit "shock"; lit "negate"]; [lit "opt"]]
  /\ exists full last,
       requestedBatches nameToId_spec 2 [lit "Shock"; lit "Negate"; lit "Opt"]
       = hd last full :: full ++ [last]
       /\ concat full ++ last
          = map (fun n => nameToId_spec (Some n))
              [lit "Shock"; lit "Negate"; lit "Opt"]
       /\ Forall (fun a => List.length a = 2%nat) full
       /\ (List.length last <= 2)%nat.
Proof.
  split; [reflexivity|].
  apply (requested_batches_shape nameToId_spec 2
           [lit "Shock"; lit "Negate"; lit "Opt"]).
  lia.
Defined.

(* ================================================================== *)
(** * The sections that [render] draws *)
(* ================================================================== *)

(** X8: the grouping loop of [render] raises a [TypeError] exactly when
    some line that is no heading falls under a name that names a member of
    [Object.prototype]. When it returns, every line that is no heading is
    filed under the name of the nearest heading before it, or under the
    default name of the mode when no heading comes before it: the bucket
    of a name holds these lines in their order, a name under which no line
    falls has no bucket, and the sections are the default one, when the
    first line is no heading, and one for each heading line, in order and
    with repetitions. *)
Theorem grouping_by_nearest_heading (isCollection : bool)
    (parsedLines : list Line) :
  (groupLines isCollection parsedLines = Thrown TypeError
   <-> exists line s,
         In (s, line) (placements (defaultSection isCollection) parsedLines)
         /\ inherited s = true)
  /\ (forall g,
         groupLines isCollection parsedLines = Returned g ->
         snd (fst g)
         = (match parsedLines with
            | line :: _ =>
                if isSection line then [] else [defaultSection isCollection]
            | [] => []
            end) ++ map sectionName (filter isSection parsedLines)
         /\ forall s,
              get s (snd g)
              = match linesUnder s
                        (placements (defaultSection isCollection)
                           parsedLines)
                with
                | [] => None
                | line :: rest => Some (line :: rest)
                end).
Proof.
  pose proof (groupLines_spec isCollection parsedLines) as P.
  destruct (groupLines isCollection parsedLines) as [g|[]].
  - destruct P as (A & B & C). split.
    + split; [discriminate|].
      intros (line & s & Hin & I). rewrite (A s line Hin) in I.
      discriminate.
    + intros g' [= <-]. split; [exact B|exact C].
  - split; [split; [intros _; exact P|reflexivity]|discriminate].
Qed.

Section SectionFacts.

Variable nameToId : option str -> str.
Variable UNKNOWN_CARD : str.
Context {F : Type} `{Number F}.
Variable cardDataByCardId : Catalog.
Variable settings : DecklistSettings.

Local Abbreviation step := (renderLine nameToId cardDataByCardId settings).

Lemma renderSections_returns (linesBySection : obj (list Line))
    (sections : list str) :
  forall totals,
    (exists r,
        renderSections nameToId cardDataByCardId settings linesBySection
          sections totals = Returned r)
    <-> forall s, In s sections -> get s linesBySection <> None.
Proof.
  induction sections as [|s rest IH]; intros totals; simpl.
  - split; [intros _ s []|]. intros _. eexists. reflexivity.
  - destruct (get s linesBySection) as [bucket|] eqn:G.
    + destruct (renderSection _ _ _ s bucket totals) as [totals' view].
      specialize (IH totals'). split.
      * intros [r Hr] s' [<-|Hin]; [congruence|].
        apply IH; [|assumption].
        destruct (renderSections _ _ _ linesBySection rest totals');
          [eexists; reflexivity|discriminate].
      * intros Hall.
        destruct (proj2 IH (fun s' Hin => Hall s' (or_intror Hin)))
          as [r' ->].
        simpl. eexists. reflexivity.
    + split; [intros [r Hr]; discriminate|].
      intros Hall. exfalso. apply (Hall s); auto.
Qed.

Lemma heading_names (parsedLines : list Line) (s : str) :
  In s (map sectionName (filter isSection parsedLines))
  <-> exists heading,
        In heading parsedLines /\ isSection heading = true
        /\ sectionName heading = s.
Proof.
  rewrite in_map_iff. split.
  - intros (h & E & Hin). apply filter_In in Hin. exists h. tauto.
  - intros (h & Hin & S & E). exists h. rewrite filter_In. tauto.
Qed.

(** X9: when no sync link is built, [render] raises a [TypeError] exactly
    when some heading line has a name that names a member of
    [Object.prototype], or a name under which no line falls, that is when
    no heading of that name is followed by a line that is no heading. In
    the first case [linesBySection] gives an inherited value under that
    name, which has neither [push] nor [forEach]; in the second it has no
    bucket for that name and the loop over the sections reads one. *)
Theorem render_raises_on_heading_without_lines
    (workspace : option Workspace) (parsedLines : list Line)
    (isCollection : bool) :
  (isCollection && isSome workspace)%bool = false ->
  render nameToId UNKNOWN_CARD cardDataByCardId settings workspace
    parsedLines isCollection = Thrown TypeError
  <-> exists heading,
        In heading parsedLines /\ isSection heading = true
        /\ (inherited (sectionName heading) = true
            \/ linesUnder (sectionName heading)
                 (placements (defaultSection isCollection) parsedLines)
               = []).
Proof.
  intros Hlink. unfold render.
  assert (Spec := groupLines_spec isCollection parsedLines).
  destruct (groupLines isCollection parsedLines) as [[[cs sections] lbs]|[]];
    cbn [bind].
  2:{ split; [intros _|reflexivity].
      destruct Spec as (line & s & Hin & I).
      destruct (placements_name _ _ _ _ Hin) as [[-> _]|Hh].
      - rewrite inherited_defaultSection in I. discriminate.
      - apply heading_names in Hh. destruct Hh as (h & Hh & S & <-).
        exists h. auto. }
  cbn [fst snd] in Spec. destruct Spec as (Hown & Hsec & Hbucket).
  pose proof (renderSections_returns lbs sections
                (mkTotals (zeroed 0 sections) (zeroed num_zero sections) []))
    as R.
  assert (Hget : forall s,
             get s lbs = None
             <-> linesUnder s
                   (placements (defaultSection isCollection) parsedLines)
                 = []).
  { intros s. rewrite (Hbucket s).
    destruct (linesUnder s _); split; congruence. }
  split.
  - intros Hthrown.
    assert (Hno : ~ (forall s, In s sections -> get s lbs <> None)).
    { intros Hall. apply R in Hall. destruct Hall as [r Hr].
      rewrite Hr in Hthrown. simpl in Hthrown.
      destruct isCollection, workspace; simpl in *; discriminate. }
    assert (Hex : exists s, In s sections /\ get s lbs = None).
    { clear - Hno. induction sections as [|s rest IH].
      - exfalso. apply Hno. intros s [].
      - destruct (get s lbs) eqn:G.
        + destruct IH as (s' & Hin & G').
          * intros Hall. apply Hno. intros s' [<-|Hin]; [congruence|auto].
          * exists s'. split; [now right|assumption].
        + exists s. split; [now left|assumption]. }
    destruct Hex as (s & Hin & G). apply Hget in G.
    rewrite Hsec in Hin. apply in_app_or in Hin. destruct Hin as [Hin|Hin].
    + exfalso. destruct parsedLines as [|line rest]; [contradiction|].
      destruct (isSection line) eqn:S; [contradiction|].
      destruct Hin as [<-|[]].
      unfold linesUnder in G. cbn [placements] in G. rewrite S in G.
      cbn [filter fst] in G. rewrite str_eqb_refl in G. discriminate.
    + apply heading_names in Hin. destruct Hin as (h & Hin & S & <-).
      exists h. auto.
  - intros (h & Hin & S & Hcase).
    assert (U : linesUnder (sectionName h)
                  (placements (defaultSection isCollection) parsedLines)
                = []).
    { destruct Hcase as [I|U]; [|exact U].
      destruct (linesUnder (sectionName h) _) as [|l rest] eqn:E;
        [reflexivity|].
      assert (Hl : In l (linesUnder (sectionName h)
                           (placements (defaultSection isCollection)
                              parsedLines)))
        by (rewrite E; now left).
      apply In_linesUnder in Hl. rewrite (Hown _ _ Hl) in I.
      discriminate. }
    assert (G : get (sectionName h) lbs = None) by now apply Hget.
    assert (Hs : In (sectionName h) sections).
    { rewrite Hsec. apply in_or_app. right. apply heading_names.
      exists h. auto. }
    destruct (renderSections _ _ _ lbs sections _) as [r|[]] eqn:Hr;
      [|reflexivity].
    exfalso. apply (proj1 R (ex_intro _ r eq_refl) _ Hs). exact G.
Qed.

(** ** Total counts *)

Lemma renderLine_count_other (section k : str) (totals : Totals)
    (sm : CardCounts) (line : Line) :
  k <> section ->
  countOf (sectionTotalCounts (fst (step section (totals, sm) line))) k
  = countOf (sectionTotalCounts totals) k.
Proof.
  intros Hne. unfold renderLine.
  destruct (lineType line); simpl; try reflexivity.
  now rewrite countOf_put_other.
Qed.

Lemma fold_renderLine_count_other (section k : str) (bucket : list Line) :
  k <> section ->
  forall totals sm,
    countOf
      (sectionTotalCounts (fst (fold_left (step section) bucket (totals, sm))))
      k
    = countOf (sectionTotalCounts totals) k.
Proof.
  intros Hne. induction bucket as [|line rest IH]; intros totals sm;
    cbn [fold_left]; [reflexivity|].
  pose proof (renderLine_count_other section k totals sm line Hne) as L.
  destruct (step section (totals, sm) line) as [totals1 sm1].
  rewrite IH. exact L.
Qed.

Lemma renderSection_counts (s : str) (bucket : list Line) (totals : Totals) :
  let r :=
    renderSection nameToId cardDataByCardId settings s bucket totals in
  (forall k,
      countOf (sectionTotalCounts (fst r)) k
      = countOf (sectionTotalCounts totals) k
        + (if str_eqb k s then sumZ (map lineCount bucket) else 0))
  /\ totalCount (snd r)
     = countOf (sectionTotalCounts totals) s + sumZ (map lineCount bucket).
Proof.
  pose proof (fold_renderLine nameToId cardDataByCardId settings s bucket
                totals []) as Hf.
  pose proof (fun k Hne =>
                fold_renderLine_count_other s k bucket Hne totals []) as Ho.
  cbv zeta in Hf |- *. unfold renderSection.
  match goal with
  | |- context [fold_left ?f bucket ?i] => set (st := fold_left f bucket i)
  end.
  change (fold_left (step s) bucket (totals, [])) with st in Hf, Ho.
  clearbody st. destruct st as [totals' sm].
  destruct Hf as (_ & _ & _ & Hc). simpl in *.
  split; [|exact Hc].
  intros k. destruct (str_eqb k s) eqn:E.
  - apply str_eqb_eq in E. subst k. exact Hc.
  - apply str_eqb_neq in E. rewrite (Ho k E). lia.
Qed.

Lemma renderSections_counts (linesBySection : obj (list Line))
    (sections : list str) :
  forall totals r,
    renderSections nameToId cardDataByCardId settings linesBySection
      sections totals = Returned r ->
    forall i s view,
      nth_error sections i = Some s ->
      nth_error (snd r) i = Some view ->
      exists bucket,
        get s linesBySection = Some bucket
        /\ totalCount view
           = countOf (sectionTotalCounts totals) s
             + Z.of_nat (occurrences s (firstn (S i) sections))
               * sumZ (map lineCount bucket).
Proof.
  induction sections as [|s0 rest IH]; intros totals r; simpl.
  - intros _ [|i] s view; discriminate.
  - destruct (get s0 linesBySection) as [bucket0|] eqn:G; [|discriminate].
    destruct (renderSection_counts s0 bucket0 totals) as [Hk Hv].
    cbv zeta in Hk, Hv.
    destruct (renderSection _ _ _ s0 bucket0 totals) as [totals' view0].
    simpl in Hk, Hv.
    destruct (renderSections _ _ _ linesBySection rest totals')
      as [r'|] eqn:R; simpl; [|discriminate].
    intros [= <-] i s view. cbn [snd fst].
    destruct i as [|i]; cbn [nth_error].
    + intros [= <-] [= <-]. exists bucket0. split; [assumption|].
      unfold occurrences. cbn [firstn count_occ].
      destruct (list_eq_dec N.eq_dec s0 s0); [|congruence].
      change (Z.of_nat 1) with 1. lia.
    + intros Hs Hview.
      destruct (IH _ _ R i s view Hs Hview) as (bucket & Gb & Ht).
      exists bucket. split; [assumption|]. rewrite Ht, Hk.
      unfold occurrences.
      change (firstn (S (S i)) (s0 :: rest)) with (s0 :: firstn (S i) rest).
      cbn [count_occ].
      destruct (list_eq_dec N.eq_dec s0 s) as [->|Hne].
      * rewrite str_eqb_refl. rewrite G in Gb. injection Gb as <-.
        rewrite Nat2Z.inj_succ. lia.
      * replace (str_eqb s s0) with false
          by (symmetry; apply str_eqb_neq; congruence).
        lia.
Qed.

Lemma countOf_zeroed (sections : list str) (k : str) :
  countOf (zeroed 0 sections) k = 0.
Proof.
  unfold zeroed.
  assert (G : forall acc,
             countOf acc k = 0 ->
             countOf (fold_left (fun acc curr => put curr 0 acc) sections acc)
               k = 0).
  { induction sections as [|s rest IH]; intros acc Hacc; simpl.
    - exact Hacc.
    - apply IH. destruct (list_eq_dec N.eq_dec k s) as [->|Hne].
      + apply countOf_put_same.
      + now rewrite countOf_put_other. }
  apply G. reflexivity.
Qed.

(** X10: when [render] returns, the lines were grouped, and the total
    count shown for the section in position i of the grouping is the sum of
    the counts of the card lines under its name, times the number of
    sections of that name up to position i: [sectionTotalCounts]
    is kept by name and the lines of a name are drawn again for each
    heading of that name, so a name that is used once shows the sum, and a
    heading that repeats a name shows the lines counted once more. *)
Theorem section_total_counts_repeated_headings
    (workspace : option Workspace) (parsedLines : list Line)
    (isCollection : bool) (r : Rendered) (g : Grouping) (i : nat) (s : str)
    (view : SectionView) :
  render nameToId UNKNOWN_CARD cardDataByCardId settings workspace
    parsedLines isCollection = Returned r ->
  groupLines isCollection parsedLines = Returned g ->
  nth_error (snd (fst g)) i = Some s ->
  nth_error (sectionViews r) i = Some view ->
  totalCount view
  = Z.of_nat (occurrences s (firstn (S i) (snd (fst g))))
    * sumZ (map lineCount
              (linesUnder s
                 (placements (defaultSection isCollection) parsedLines))).
Proof.
  unfold render.
  assert (Spec := groupLines_spec isCollection parsedLines).
  intros Hr Hg. rewrite Hg in Hr, Spec. cbn [bind] in Hr.
  destruct g as [[cs sections] lbs].
  cbn [fst snd] in Spec |- *. destruct Spec as (_ & _ & Hget).
  specialize (Hget s).
  destruct (renderSections _ _ _ lbs sections _) as [rs|] eqn:R;
    cbn [bind] in Hr; [|discriminate].
  intros Hs Hview.
  assert (Hviews : sectionViews r = snd rs).
  { destruct isCollection, workspace as [w|]; simpl in Hr;
      try destruct (syncHref w parsedLines cardDataByCardId);
      simpl in Hr; try discriminate; now injection Hr as <-. }
  rewrite Hviews in Hview.
  destruct (renderSections_counts lbs sections _ _ R i s view Hs Hview)
    as (bucket & Gb & Ht).
  rewrite Ht. cbn [sectionTotalCounts]. rewrite countOf_zeroed.
  rewrite Hget in Gb.
  destruct (linesUnder s _) as [|line rest]; [discriminate|].
  injection Gb as <-. lia.
Qed.

(** ** The global missing counts *)






(** ** Hidden prices *)








End SectionFacts.

Lemma render_raises_on_heading_without_lines_witness :
  render nameToId_spec UNKNOWN_CARD_spec catalog0 settings0 None
    (parseLines nameToId_spec emptyHeading ledger0) false
  = Thrown TypeError
  /\ render nameToId_spec UNKNOWN_CARD_spec catalog0 settings0 None
       (parseLines nameToId_spec prototypeHeading ledger0) false
     = Thrown TypeError.
Proof.
  split.
  - apply (render_raises_on_heading_without_lines nameToId_spec
             UNKNOWN_CARD_spec catalog0 settings0 None
             (parseLines nameToId_spec emptyHeading ledger0) false eq_refl).
    exists (mkLine section None None None None None None None
              (Some (lit "Deck:"))).
    split; [left; reflexivity|]. split; [reflexivity|].
    right. reflexivity.
  - apply (render_raises_on_heading_without_lines nameToId_spec
             UNKNOWN_CARD_spec catalog0 settings0 None
             (parseLines nameToId_spec prototypeHeading ledger0) false
             eq_refl).
    exists (mkLine section None None None None None None None
              (Some (lit "constructor"))).
    split; [left; reflexivity|]. split; [reflexivity|].
    left. reflexivity.
Defined.

Lemma section_total_counts_repeated_headings_witness :
  match render nameToId_spec UNKNOWN_CARD_spec catalog0 settings0 None
          (parseLines nameToId_spec twiceSideboard ledger0) false with
  | Returned r =>
      match nth_error (sectionViews r) 1 with
      | Some view => totalCount view = 2 * (2 + 3)
      | None => False
      end
  | Thrown _ => False
  end.
Proof.
  destruct (render nameToId_spec UNKNOWN_CARD_spec catalog0 settings0 None
              (parseLines nameToId_spec twiceSideboard ledger0) false)
    as [r|e] eqn:E.
  - destruct (nth_error (sectionViews r) 1) as [view|] eqn:V.
    + destruct (groupLines false (parseLines nameToId_spec twiceSideboard
                                    ledger0)) as [g|e] eqn:G.
      * assert (S : nth_error (snd (fst g)) 1 = Some (lit "Sideboard:"))
          by (vm_compute in G; injection G as <-; reflexivity).
        rewrite (section_total_counts_repeated_headings nameToId_spec
                   UNKNOWN_CARD_spec catalog0 settings0 None _ false r g 1
                   (lit "Sideboard:") view E G S V).
        vm_compute in G. injection G as <-. reflexivity.
      * vm_compute in G. discriminate G.
    + vm_compute in E. injection E as <-. discriminate V.
  - vm_compute in E. discriminate E.
Defined.



(* ================================================================== *)
(** * Card entries *)
(* ================================================================== *)

Lemma digit_not_space (c : char) : is_digit c = true -> is_space c = false.
Proof.
  unfold is_digit, in_range. intros Hd.
  apply andb_true_iff in Hd. destruct Hd as [H1 H2].
  apply N.leb_le in H1. apply N.leb_le in H2.
  assert (D : (c = 48 \/ c = 49 \/ c = 50 \/ c = 51 \/ c = 52 \/ c = 53
               \/ c = 54 \/ c = 55 \/ c = 56 \/ c = 57)%N) by lia.
  repeat (destruct D as [->|D]; [reflexivity|]). now subst.
Qed.

Lemma try_counts_first (k low : nat) (s : str)
    (rest : str -> option (list str)) (ps : list str) :
  (low <= k)%nat ->
  rest (skipn k s) = Some ps ->
  try_counts k low s rest = Some (firstn k s :: ps).
Proof.
  intros Hl Hr. apply Nat.leb_le in Hl.
  destruct k; cbn [try_counts]; now rewrite Hl, Hr.
Qed.

Lemma try_counts_some (k low : nat) (s : str)
    (rest : str -> option (list str)) (ps : list str) :
  try_counts k low s rest = Some ps ->
  exists j ps',
    (j <= k)%nat /\ (low <= j)%nat /\ rest (skipn j s) = Some ps'
    /\ ps = firstn j s :: ps'.
Proof.
  induction k as [|k IH]; cbn [try_counts].
  - destruct (low <=? 0)%nat eqn:L.
    + destruct (rest (skipn 0 s)) as [ps'|] eqn:R; [|discriminate].
      intros [= <-]. exists 0%nat, ps'. apply Nat.leb_le in L. auto.
    + discriminate.
  - destruct (low <=? S k)%nat eqn:L.
    + destruct (rest (skipn (S k) s)) as [ps'|] eqn:R.
      * intros [= <-]. exists (S k), ps'. apply Nat.leb_le in L. auto.
      * intros E. destruct (IH E) as (j & ps' & Hj & Hl & Hr & ->).
        exists j, ps'. auto.
    + intros E. destruct (IH E) as (j & ps' & Hj & Hl & Hr & ->).
      exists j, ps'. auto.
Qed.

Lemma firstn_run (p : char -> bool) (s : str) (j : nat) :
  (j <= run_length p s)%nat ->
  forallb p (firstn j s) = true /\ List.length (firstn j s) = j.
Proof.
  revert j. induction s as [|c s IH]; intros j Hj; simpl in Hj.
  - assert (j = 0)%nat by lia. subst. auto.
  - destruct j as [|j]; [auto|]. simpl.
    destruct (p c); [|lia].
    destruct (IH j) as [A L]; [lia|]. rewrite A, L. auto.
Qed.

Lemma greedy_le (it : item) (s : str) :
  (greedy it s <= run_length (cls it) s)%nat.
Proof. unfold greedy. destruct (hi it); lia. Qed.

(** What a match gives: one piece for each item, made of characters of
    its class and at least as long as the item asks, the pieces being
    the beginning of the string, and all of it under an end anchor. *)
Lemma match_items_sound (at_end : bool) (its : list item) :
  forall s ps,
    match_items at_end its s = Some ps ->
    Forall2
      (fun it piece =>
         forallb (cls it) piece = true
         /\ (lo it <= List.length piece)%nat)
      its ps
    /\ exists after,
         s = concat ps ++ after /\ (at_end = true -> after = []).
Proof.
  induction its as [|it rest IH]; intros s ps; cbn [match_items].
  - destruct at_end.
    + destruct s; [|discriminate]. intros [= <-]. split; [constructor|].
      exists []. auto.
    + intros [= <-]. split; [constructor|]. exists s. split; [auto|].
      discriminate.
  - intros E. apply try_counts_some in E.
    destruct E as (j & ps' & Hj & Hl & Hr & ->).
    destruct (IH _ _ Hr) as (F & after & Hs & He).
    pose proof (greedy_le it s) as Hg.
    destruct (firstn_run (cls it) s j) as [A L]; [lia|].
    split.
    + constructor; [|assumption]. split; [assumption|lia].
    + exists after. split; [|assumption].
      cbn [concat]. rewrite <- app_assoc, <- Hs. symmetry.
      apply firstn_skipn.
Qed.

Lemma search_from_sound (r : regex) (s : str) :
  forall before b ps,
    search_from r before s = Some (b, ps) ->
    exists skipped t,
      s = skipped ++ t /\ b = rev before ++ skipped
      /\ match_items (anchor_end r) (items r) t = Some ps.
Proof.
  induction s as [|c s IH]; intros before b ps; cbn [search_from].
  - destruct (match_items _ _ []) as [ps'|] eqn:M; [|discriminate].
    intros [= <- <-]. exists [], [].
    repeat split; [now rewrite app_nil_r|assumption].
  - destruct (match_items _ _ (c :: s)) as [ps'|] eqn:M.
    + intros [= <- <-]. exists [], (c :: s).
      repeat split; [now rewrite app_nil_r|assumption].
    + intros E. destruct (IH _ _ _ E) as (skipped & t & -> & -> & Mt).
      exists (c :: skipped), t. simpl. rewrite <- app_assoc.
      repeat split; auto.
Qed.

Lemma digit_then_space_app (a b : str) (x y : char) :
  is_digit x = true -> is_space y = true ->
  digit_then_space (a ++ x :: y :: b) = true.
Proof.
  intros Hx Hy. induction a as [|c a IH]; simpl.
  - now rewrite Hx, Hy.
  - rewrite IH. apply orb_true_r.
Qed.

(** [lineMatchRE] finds a match exactly in the strings that have a digit
    followed at once by a white-space character. *)
Lemma exec_lineMatchRE (s : str) :
  isSome (exec lineMatchRE s) = digit_then_space s.
Proof.
  unfold exec. cbn [anchor_start lineMatchRE].
  assert (G : forall before,
             isSome (search_from lineMatchRE before s) = digit_then_space s).
  { induction s as [|c s IH]; intros before.
    - reflexivity.
    - cbn [search_from].
      destruct (match_items _ _ (c :: s)) as [ps|] eqn:M.
      + cbn [isSome]. symmetry.
        apply match_items_sound in M. destruct M as (F & after & Hs & _).
        inversion F as [|it1 p1 its1 ps1 [A1 L1] F1]; subst.
        inversion F1 as [|it2 p2 its2 ps2 [A2 L2] F2]; subst.
        cbn [cls lo plus one] in *.
        destruct p1 as [|x p1] using rev_ind; [simpl in L1; lia|].
        destruct p2 as [|y p2]; [simpl in L2; lia|].
        rewrite forallb_app in A1. simpl in A1, A2.
        apply andb_true_iff in A1. destruct A1 as [_ A1].
        rewrite andb_true_r in A1.
        apply andb_true_iff in A2. destruct A2 as [A2 _].
        rewrite Hs. cbn [concat].
        rewrite <- !app_assoc. cbn [app].
        now apply digit_then_space_app.
      + rewrite IH. cbn [digit_then_space].
        destruct (is_digit c && first_is is_space s)%bool eqn:P;
          [|reflexivity].
        exfalso. apply andb_true_iff in P. destruct P as [Hc Hs].
        destruct s as [|y s]; [discriminate|]. simpl in Hs.
        pose proof (digit_not_space c Hc) as Hcs.
        assert (Hy : is_digit y = false).
        { destruct (is_digit y) eqn:D; [|reflexivity].
          apply digit_not_space in D. congruence. }
        cbn [match_items lineMatchRE items] in M.
        unfold greedy in M. cbn [cls hi lo plus one star run_length] in M.
        rewrite Hc, Hy in M.
        rewrite (try_counts_first 1 1 (c :: y :: s) _
                   ([y] :: [firstn (run_length is_dot s) s])) in M;
          [discriminate|lia|].
        cbn [skipn]. cbn [run_length]. rewrite Hs.
        replace (Nat.min (S (run_length is_space s)) 1) with 1%nat
          by (destruct (run_length is_space s); reflexivity).
        apply (try_counts_first 1 1 (y :: s) _
                 [firstn (run_length is_dot s) s]); [lia|].
        cbn [skipn].
        now apply (try_counts_first (run_length is_dot s) 0 s _ []);
          [lia|]. }
  apply G.
Qed.

Lemma exec_sound (r : regex) (s before : str) (ps : list str) :
  exec r s = Some (before, ps) ->
  Forall2
    (fun it piece =>
       forallb (cls it) piece = true /\ (lo it <= List.length piece)%nat)
    (items r) ps
  /\ exists after, s = before ++ concat ps ++ after.
Proof.
  unfold exec. destruct (anchor_start r).
  - destruct (match_items _ _ s) as [ps'|] eqn:M; [|discriminate].
    intros [= <- <-]. apply match_items_sound in M.
    destruct M as (F & after & Hs & _). split; [assumption|].
    now exists after.
  - intros E. apply search_from_sound in E.
    destruct E as (skipped & t & -> & -> & M).
    apply match_items_sound in M.
    destruct M as (F & after & Hs & _). split; [assumption|].
    exists after. simpl. now rewrite Hs.
Qed.

Lemma includes_app (c : char) (a b : str) :
  includes c (a ++ b) = (includes c a || includes c b)%bool.
Proof. apply existsb_app. Qed.

(** [lineWithSetCodes] needs an opening parenthesis. *)
Lemma test_lineWithSetCodes_paren (s : str) :
  includes (chr "(") s = false -> test lineWithSetCodes s = false.
Proof.
  intros Hs. unfold test.
  destruct (exec lineWithSetCodes s) as [[before ps]|] eqn:E;
    [|reflexivity].
  exfalso. apply exec_sound in E. destruct E as (F & after & ->).
  cbn [items lineWithSetCodes] in F.
  inversion F as [|it1 p1 its1 ps1 _ F1]; subst.
  inversion F1 as [|it2 p2 its2 ps2 _ F2]; subst.
  inversion F2 as [|it3 p3 its3 ps3 _ F3]; subst.
  inversion F3 as [|it4 p4 its4 ps4 _ F4]; subst.
  inversion F4 as [|it5 p5 its5 ps5 [A L] F5]; subst.
  cbn [cls lo one] in A, L.
  destruct p5 as [|c p5]; [simpl in L; lia|].
  simpl in A. apply andb_true_iff in A. destruct A as [A _].
  unfold is_char in A. apply N.eqb_eq in A. subst c.
  cbn [concat] in Hs. rewrite !includes_app in Hs.
  cbn [includes existsb] in Hs. rewrite N.eqb_refl in Hs.
  cbn [orb] in Hs. rewrite !orb_true_r in Hs. discriminate.
Qed.

Lemma run_length_stop (p : char -> bool) (a b : str) (c : char) :
  forallb p a = true -> p c = false ->
  run_length p (a ++ c :: b) = List.length a.
Proof.
  intros A C. induction a as [|x a IH]; simpl in *.
  - now rewrite C.
  - destruct (p x); [|discriminate]. now rewrite IH.
Qed.

Lemma last_is_app (p : char -> bool) (a b : str) (c : char) :
  last_is p (a ++ c :: b) = last_is p (c :: b).
Proof.
  induction a as [|x a IH]; [reflexivity|].
  change ((x :: a) ++ c :: b) with (x :: (a ++ c :: b)).
  cbn [last_is]. rewrite IH. now destruct a.
Qed.

Lemma forallb_existsb_disjoint (p q : char -> bool) (s : str) :
  (forall c, p c = true -> q c = false) ->
  forallb p s = true -> existsb q s = false.
Proof.
  intros D. induction s as [|c s IH]; simpl; [reflexivity|].
  intros A. apply andb_true_iff in A. destruct A as [A1 A2].
  now rewrite (D c A1), IH.
Qed.

Lemma digit_in_range (c : char) :
  is_digit c = true -> (48 <= c <= 57)%N.
Proof.
  unfold is_digit, in_range. intros Hd.
  apply andb_true_iff in Hd. destruct Hd as [H1 H2].
  apply N.leb_le in H1. apply N.leb_le in H2. lia.
Qed.

Lemma digits_exclude (x : char) (s : str) :
  is_digit x = false -> forallb is_digit s = true -> includes x s = false.
Proof.
  intros Hx. apply forallb_existsb_disjoint. intros c Hc.
  destruct (N.eqb_spec x c) as [->|]; congruence.
Qed.

Lemma parseInt_from (s : str) :
  forall acc,
    0 <= acc -> forallb is_digit s = true ->
    0 <= fold_left (fun acc c => 10 * acc + digit_value c) s acc.
Proof.
  induction s as [|c s IH]; intros acc Hacc A;
    cbn [fold_left forallb] in *.
  - assumption.
  - apply andb_true_iff in A. destruct A as [Hc A].
    apply IH; [|assumption].
    apply digit_in_range in Hc. unfold digit_value. lia.
Qed.

Lemma split_none (sep : char) (s : str) :
  includes sep s = false -> split sep s = [s].
Proof.
  induction s as [|c s IH]; simpl; [reflexivity|].
  intros A. apply orb_false_iff in A. destruct A as [A1 A2].
  rewrite N.eqb_sym, A1, (IH A2). reflexivity.
Qed.

Lemma split_app (sep : char) (a b : str) :
  includes sep a = false -> split sep (a ++ sep :: b) = a :: split sep b.
Proof.
  induction a as [|c a IH]; simpl.
  - intros _. now rewrite N.eqb_refl.
  - intros A. apply orb_false_iff in A. destruct A as [A1 A2].
    rewrite N.eqb_sym, A1, (IH A2). reflexivity.
Qed.

Lemma split_join (sep : char) (parts : list str) :
  parts <> [] ->
  Forall (fun p => includes sep p = false) parts ->
  split sep (join sep parts) = parts.
Proof.
  induction parts as [|p rest IH]; [congruence|].
  intros _ A. inversion A as [|p' rest' Hp Hrest]; subst.
  destruct rest as [|q rest].
  - simpl. now apply split_none.
  - cbn [join]. rewrite split_app by assumption.
    f_equal. apply IH; [discriminate|assumption].
Qed.

Section EntryFacts.

Variable nameToId : option str -> str.

(** X13: a card entry reads back. A line made of decimal digits that
    write a number of at most 2^53 (the integers that a JavaScript number
    holds exactly), one white-space character and a name that holds no
    comment delimiter, no opening parenthesis and no line terminator, and
    does not end in a digit, is read as a card whose count is the number
    the digits write and whose name is the rest of the line as it stands,
    with no comment, no collector number and no set code; the only error
    there can be is the one for an empty name. The set code carried from
    line to line is left as it was. *)
Theorem card_entry_reads_back (cardCounts : CardCounts)
    (currentSetCode digits name : str) (space : char) :
  digits <> [] ->
  forallb is_digit digits = true ->
  parseInt digits <= 2 ^ 53 ->
  is_space space = true ->
  forallb is_dot name = true ->
  includes COMMENT_DELIMITER name = false ->
  includes (chr "(") name = false ->
  last_is is_digit name = false ->
  parseLine nameToId cardCounts currentSetCode (digits ++ space :: name)
  = (mkLine card (Some (parseInt digits))
       (Some (if shouldSkipGlobalCounts cardCounts then None
              else Some (countOf cardCounts (nameToId (Some name)))))
       (Some name) None None (Some [])
       (Some (match name with
              | [] =>
                  [lit "Unable to parse card name from: "
                   ++ digits ++ space :: name]
              | _ :: _ => []
              end))
       None,
     currentSetCode).
Proof.
  intros Hne Hd _ Hsp Hdot Hcomment Hparen Hlast.
  destruct digits as [|d digits]; [congruence|].
  simpl in Hd. apply andb_true_iff in Hd. destruct Hd as [Hd0 Hd].
  assert (Hnd : is_digit space = false).
  { destruct (is_digit space) eqn:D; [|reflexivity].
    apply digit_not_space in D. congruence. }
  assert (Hhash : forall x,
             is_digit x = false -> is_space x = false ->
             includes x name = false ->
             includes x ((d :: digits) ++ space :: name) = false).
  { intros x Hx1 Hx2 Hx3. rewrite includes_app.
    cbn [includes existsb]. fold (includes x digits) (includes x name).
    rewrite (digits_exclude x digits Hx1 Hd), Hx3.
    destruct (N.eqb_spec x d) as [->|_]; [congruence|].
    destruct (N.eqb_spec x space) as [->|_]; [congruence|]. reflexivity. }
  unfold parseLine.
  rewrite test_blankLineRE, test_headingMatchRE, test_numberRE.
  rewrite (test_lineWithSetCodes_paren _
             (Hhash (chr "(") eq_refl eq_refl Hparen)).
  rewrite (Hhash COMMENT_DELIMITER eq_refl eq_refl Hcomment).
  rewrite last_is_app.
  replace (last_is is_digit (space :: name)) with false
    by (cbn [last_is]; destruct name; [now rewrite Hnd|now rewrite Hlast]).
  change ((d :: digits) ++ space :: name)
    with (d :: (digits ++ space :: name)).
  cbn [List.length Nat.eqb orb negb andb forallb first_is startsWith].
  rewrite (digit_not_space d Hd0). cbn [andb].
  replace (is_heading_start d) with false
    by (unfold is_heading_start; rewrite Hd0;
        now rewrite orb_true_r, !orb_true_l).
  replace (COMMENT_DELIMITER =? d)%N with false
    by (symmetry; apply N.eqb_neq; intros <-; discriminate).
  cbn [andb].
  assert (E : exec lineMatchRE (d :: (digits ++ space :: name))
              = Some ([], [d :: digits; [space]; name])).
  { unfold exec. cbn [anchor_start lineMatchRE].
    change (d :: (digits ++ space :: name))
      with ((d :: digits) ++ space :: name).
    destruct (((d :: digits) ++ space :: name)) as [|c0 s0] eqn:Es;
      [discriminate|].
    rewrite <- Es.
    assert (M : match_items false [plus is_digit; one is_space; star is_dot]
                  ((d :: digits) ++ space :: name)
                = Some [d :: digits; [space]; name]).
    { cbn [match_items]. unfold greedy. cbn [cls hi lo plus one star].
      rewrite run_length_stop
        by (try assumption; simpl; now rewrite Hd0, Hd).
      rewrite (try_counts_first _ 1 _ _ [[space]; name]).
      - f_equal. f_equal. rewrite firstn_app, Nat.sub_diag, firstn_all.
        cbn [firstn]. apply app_nil_r.
      - simpl. lia.
      - rewrite skipn_app, Nat.sub_diag, skipn_all. cbn [skipn app].
        cbn [run_length]. rewrite Hsp.
        replace (Nat.min (S (run_length is_space name)) 1) with 1%nat
          by (destruct (run_length is_space name); reflexivity).
        apply (try_counts_first 1 1 (space :: name) _ [name]); [lia|].
        cbn [skipn]. rewrite (proj2 (run_length_all _ _) Hdot).
        rewrite (try_counts_first _ 0 name _ []);
          [now rewrite firstn_all|lia|reflexivity]. }
    rewrite Es in *. cbn [search_from]. cbn [anchor_end items lineMatchRE].
    now rewrite M. }
  rewrite E. cbn [nth truthy]. f_equal. f_equal.
  now destruct name.
Qed.

Lemma parseLine_count (cardCounts : CardCounts) (st line : str) (n : Z) :
  cardCount (fst (parseLine nameToId cardCounts st line)) = Some n ->
  0 <= n.
Proof.
  unfold parseLine.
  destruct (Nat.eqb (List.length line) 0 || test blankLineRE line)%bool;
    [discriminate|].
  destruct (test headingMatchRE line); [discriminate|].
  destruct (startsWith [COMMENT_DELIMITER; chr " "] line); [discriminate|].
  destruct (test numberRE line); [intros [= <-]; lia|].
  destruct (exec lineMatchRE _) as [[before lineParts]|] eqn:E;
    [|discriminate].
  cbn [fst cardCount]. intros [= <-].
  apply exec_sound in E. destruct E as (F & _).
  cbn [items lineMatchRE] in F.
  inversion F as [|it1 p1 its1 ps1 [A _] _]; subst.
  cbn [nth cls plus] in *.
  destruct (truthy p1).
  - now apply parseInt_from.
  - discriminate.
Qed.

(** X14: no record carries a negative count. Whatever the lines and the
    ledger, the count of a record of [parseLines], when it has one, is
    zero or more: a minus sign before the digits is not read as part of
    the number. *)
Theorem parsed_counts_not_negative (rawLines : list str)
    (cardCounts : CardCounts) :
  Forall
    (fun parsed => forall n, cardCount parsed = Some n -> 0 <= n)
    (parseLines nameToId rawLines cardCounts).
Proof.
  unfold parseLines. generalize (@nil char) as st.
  induction rawLines as [|line rest IH]; intros st; cbn [parseFrom].
  - constructor.
  - pose proof (parseLine_count cardCounts st line) as P.
    destruct (parseLine nameToId cardCounts st line) as [parsed st'].
    constructor; [exact P|apply IH].
Qed.

(** X15: the lines reported as invalid. A line is given the type [error]
    exactly when it is not made of white space only, its first character
    is one that a heading cannot start with, it does not start with the
    comment delimiter and a space, it does not end in a digit, and the
    text read for the entry has no digit followed at once by a
    white-space character. Its record then holds one error, "invalid
    line: " and the line, and nothing else. *)
Theorem invalid_line_iff (cardCounts : CardCounts)
    (currentSetCode line : str) :
  let parsed := fst (parseLine nameToId cardCounts currentSetCode line) in
  (lineType parsed = error
   <-> forallb is_space line = false
       /\ first_is is_heading_start line = false
       /\ startsWith [COMMENT_DELIMITER; chr " "] line = false
       /\ last_is is_digit line = false
       /\ digit_then_space (textForEntry line) = false)
  /\ (lineType parsed = error ->
      parsed = mkLine error None None None None None None
                 (Some [lit "invalid line: " ++ line]) None).
Proof.
  cbv zeta. unfold parseLine.
  rewrite test_blankLineRE, test_headingMatchRE, test_numberRE.
  replace (Nat.eqb (List.length line) 0
           || negb (Nat.eqb (List.length line) 0) && forallb is_space line)%bool
    with (forallb is_space line)
    by (destruct line; simpl; [reflexivity|now destruct (is_space c)]).
  pose proof (exec_lineMatchRE (textForEntry line)) as E.
  unfold textForEntry at 1 in E.
  destruct (forallb is_space line);
    [simpl; split; [split; [discriminate|intros (A & _); discriminate]
                   |discriminate]|].
  destruct (first_is is_heading_start line);
    [simpl; split; [split; [discriminate|intros (_ & A & _); discriminate]
                   |discriminate]|].
  destruct (startsWith [COMMENT_DELIMITER; chr " "] line);
    [simpl; split; [split; [discriminate
                           |intros (_ & _ & A & _); discriminate]
                   |discriminate]|].
  destruct (last_is is_digit line);
    [simpl; split; [split; [discriminate
                           |intros (_ & _ & _ & A & _); discriminate]
                   |discriminate]|].
  destruct (exec lineMatchRE _) as [[before lineParts]|];
    cbn [isSome] in E; rewrite <- E; simpl.
  - split; [split; [discriminate|intros (_ & _ & _ & _ & A); discriminate]
           |discriminate].
  - repeat split; reflexivity.
Qed.

End EntryFacts.

Lemma card_entry_reads_back_witness :
  parseLine nameToId_spec ledger0 (lit "war") (lit "4 Shock")
  = (mkLine card (Some 4) (Some (Some 0)) (Some (lit "Shock")) None None
       (Some []) (Some []) None,
     lit "war").
Proof.
  apply (card_entry_reads_back nameToId_spec ledger0 (lit "war") (lit "4")
           (lit "Shock") (chr " "));
    solve [reflexivity | discriminate | (vm_compute; discriminate)].
Defined.

(* ================================================================== *)
(** * Set directives *)
(* ================================================================== *)

Lemma plainSetting_split (kv : str * str) :
  plainSetting kv = true ->
  includes (chr ",") (settingText kv) = false
  /\ split (chr "=") (settingText kv) = [fst kv; snd kv].
Proof.
  unfold plainSetting, settingText. intros P.
  apply negb_true_iff in P.
  apply orb_false_iff in P. destruct P as [P P4].
  apply orb_false_iff in P. destruct P as [P P3].
  apply orb_false_iff in P. destruct P as [P1 P2].
  split.
  - rewrite includes_app. cbn [includes existsb].
    fold (includes (chr ",") (fst kv)) (includes (chr ",") (snd kv)).
    now rewrite P1, P3.
  - rewrite split_app by assumption. now rewrite split_none.
Qed.

Lemma extractSetCode_fold (settings : list (str * str)) :
  Forall (fun kv => plainSetting kv = true) settings ->
  forall code,
    fold_left
      (fun setCode setting =>
         match split (chr "=") setting with
         | [k; v] => if str_eqb (trim k) (lit "set") then trim v else setCode
         | _ => setCode
         end)
      (map settingText settings) code
    = fold_left
        (fun setCode kv => if isSetKey kv then trim (snd kv) else setCode)
        settings code.
Proof.
  induction 1 as [|kv rest P _ IH]; intros code; cbn [map fold_left].
  - reflexivity.
  - destruct (plainSetting_split kv P) as [_ ->]. apply IH.
Qed.

(** X16: the last [set] setting of a comment wins. When the text after the
    first character of a comment is a list of [key=value] settings
    separated by commas, whose keys and values hold no comma and no equals
    sign, [extractSetCode] gives the trimmed value of the last setting
    whose trimmed key is [set]: the settings before it, and the settings
    with another key after it, do not count. *)
Theorem extractSetCode_last_set_wins (mark : char)
    (earlier later : list (str * str)) (key value : str) :
  Forall (fun kv => plainSetting kv = true)
    (earlier ++ (key, value) :: later) ->
  trim key = lit "set" ->
  Forall (fun kv => isSetKey kv = false) later ->
  extractSetCode
    (mark :: join (chr ",")
               (map settingText (earlier ++ (key, value) :: later)))
  = trim value.
Proof.
  intros P K L. unfold extractSetCode. cbn [slice1 tl].
  rewrite split_join.
  - rewrite (extractSetCode_fold _ P), fold_left_app. cbn [fold_left].
    unfold isSetKey at 2. cbn [fst snd]. rewrite K.
    replace (str_eqb (lit "set") (lit "set")) with true by reflexivity.
    clear P. generalize (trim value) as code.
    induction L as [|kv rest Hkv _ IH]; intros code; cbn [fold_left].
    + reflexivity.
    + rewrite Hkv. apply IH.
  - destruct earlier; discriminate.
  - apply Forall_map. eapply Forall_impl; [|exact P].
    intros kv Hkv. now destruct (plainSetting_split kv Hkv).
Qed.

Lemma extractSetCode_last_set_wins_witness :
  extractSetCode (lit "# a=b, set = m19 ,set=war,x=y") = lit "war".
Proof.
  apply (extractSetCode_last_set_wins (chr "#")
           [(lit " a", lit "b"); (lit " set ", lit " m19 ")]
           [(lit "x", lit "y")] (lit "set") (lit "war")).
  - repeat constructor.
  - reflexivity.
  - repeat constructor.
Defined.
